(** * node-compression-benchmark: the benchmark script, embedded and verified

    A shallow embedding of the benchmark script (the current variant, with
    its package-file resolver, and the superseded variant under
    [scripts/benchmark.js]) and the proofs of its specification.

    The script is sequential JavaScript with side effects on the file
    system, the console, a monotonic timer and the process exit code.  It is
    embedded in a state-and-exception monad over an explicit [World]; the
    Node modules it calls ([fs], [path], [zlib], [perf_hooks], the chart
    renderer, [Date], [Number.prototype.toFixed]) are not part of the
    repository and are the fields of the [Host] interface.

    JavaScript numbers are IEEE-754 binary64 values: they are [spec_float]
    at precision 53 and maximal exponent 1024, with the operations of the
    Standard Library's executable specification of binary64 arithmetic. *)

From Stdlib Require Import ZArith String Ascii List Sorted Lia.
From Stdlib Require Import Floats.
From stdpp Require Import base option list strings gmap pretty.

Open Scope Z_scope.

(** ** JavaScript numbers *)

Definition prec : Z := 53.
Definition emax : Z := 1024.

Definition number : Type := spec_float.

(** The number whose value is the integer [z] (exact for |z| < 2^53). *)
Definition number_of_Z (z : Z) : number := binary_normalize prec emax z 0 false.

(** The number zero. *)
Definition zero : number := S754_zero false.

(** [x / y], [x - y] and [x < y] on numbers. *)
Definition js_div (x y : number) : number := SFdiv prec emax x y.
Definition js_sub (x y : number) : number := SFsub prec emax x y.
Definition js_lt (x y : number) : bool := SFltb x y.

(** [buffer.constants.MAX_LENGTH] of the Node versions the script accepts
    (v22 and later): no Buffer is longer. *)
Definition kMaxLength : Z := 2 ^ 53 - 1.

(** ** Values of the script *)

Definition Buffer : Type := list Byte.byte.

(** [buffer.length] *)
Definition Buffer_length (b : Buffer) : Z := Z.of_nat (length b).

(** A thrown value: an error object with its constructor's name and its
    message. *)
Record exn : Type := Exn { exn_name : string; exn_message : string }.

(** [new Error(message)] *)
Definition Error (message : string) : exn := Exn "Error" message.
Definition TypeError (message : string) : exn := Exn "TypeError" message.

(** The outcome of evaluating an expression or a statement list. *)
Inductive completion (A : Type) : Type :=
| Normal (a : A)
| Throw (e : exn).
Arguments Normal {A} a.
Arguments Throw {A} e.

(** One object of the [levels] sweep: lines 291-296. *)
Record Measurement : Type := {
  m_level : Z;
  m_time : number;
  m_size : Z;
  m_ratio : number;
}.

(** One object pushed to [algorithmResults]: lines 299-302. *)
Record AlgorithmResult : Type := {
  ar_name : string;
  ar_measurements : list Measurement;
}.

(** [fileResult]: lines 311-316. *)
Record FileResult : Type := {
  fr_id : string;
  fr_displayName : string;
  fr_originalSize : Z;
  fr_algorithms : list AlgorithmResult;
}.

(** An element of [results]: [{ ...fileResult, chartPath }], line 336. *)
Record RunEntry : Type := {
  re_file : FileResult;
  re_chartPath : string;
}.

(** The chart description handed to the renderer: the part of
    [configuration] (lines 201-250) that depends on the file result.  The
    remaining fields are literals. *)
Record Dataset : Type := {
  ds_label : string;
  ds_data : list (Z * number);
}.

Record ChartConfiguration : Type := {
  cfg_type : string;
  cfg_datasets : list Dataset;
  cfg_title : string;
}.

(** ** The host: Node's modules as the script uses them *)

Class Host : Type := {
  (** the state of the file system *)
  FS : Type;
  (** [fs.existsSync(path)] *)
  fs_existsSync : FS -> string -> bool;
  (** [fs.readFileSync(path)] *)
  fs_readFileSync : FS -> string -> completion Buffer;
  (** [fs.writeFileSync(path, data, 'utf8')] *)
  fs_writeFileSync : FS -> string -> string -> completion FS;
  (** [fs.mkdirSync(path, { recursive: true })] *)
  fs_mkdirSync : FS -> string -> completion FS;
  (** [require.resolve(request, { paths })] *)
  require_resolve : FS -> string -> list string -> completion string;
  (** [path.join(...segments)], [path.dirname], [path.relative],
      [path.resolve] *)
  path_join : list string -> string;
  path_dirname : string -> string;
  path_relative : string -> string -> string;
  path_resolve : list string -> string;
  (** [__dirname] of the script *)
  module_dirname : string;
  (** [zlib.gzipSync(buffer, { level })] *)
  zlib_gzipSync : Buffer -> Z -> completion Buffer;
  (** [zlib.brotliCompressSync(buffer, { params: { [BROTLI_PARAM_QUALITY]: level } })] *)
  zlib_brotliCompressSync : Buffer -> Z -> completion Buffer;
  (** [zlib.zstdCompressSync], absent before Node v22 *)
  zlib_zstdCompressSync : option (Buffer -> Z -> completion Buffer);
  (** the n-th reading of [performance.now()] *)
  performance_now : nat -> number;
  (** [chartJSNodeCanvas.renderToBufferSync(configuration, mime).toString('utf8')] *)
  renderToBufferSync : ChartConfiguration -> string -> completion string;
  (** [new Date().toISOString()] at a given point of the run *)
  Date_toISOString : nat -> string;
  (** [Number(value).toFixed(fractionDigits)] *)
  Number_toFixed : number -> nat -> string;
  (** [process.env.BENCHMARK_VERBOSE] *)
  env_BENCHMARK_VERBOSE : option string;
}.

(** ** The world and the monad of the script *)

Inductive output : Type :=
| Stdout (line : string)          (* console.log(line) *)
| Stderr (line : string)          (* console.error(line) *)
| StderrError (e : exn).          (* console.error(error) *)

Section Script.
Context `{H : Host}.

Record World : Type := {
  w_fs : FS;
  w_ticks : nat;                  (* timer and clock readings taken so far *)
  w_console : list output;        (* oldest first *)
  w_exitCode : option Z;          (* process.exitCode *)
}.

Definition M (A : Type) : Type := World -> completion A * World.

Definition ret {A} (a : A) : M A := fun w => (Normal a, w).

Definition bind {A B} (m : M A) (k : A -> M B) : M B :=
  fun w =>
    match m w with
    | (Normal a, w') => k a w'
    | (Throw e, w') => (Throw e, w')
    end.

Definition throw {A} (e : exn) : M A := fun w => (Throw e, w).

(** [try { m } catch (error) { handler error }] *)
Definition try_catch {A} (m : M A) (handler : exn -> M A) : M A :=
  fun w =>
    match m w with
    | (Normal a, w') => (Normal a, w')
    | (Throw e, w') => handler e w'
    end.

(** a call of a host function that has no effect on the world *)
Definition call {A} (c : completion A) : M A := fun w => (c, w).

End Script.

Notation "x <- m ;; k" := (bind m (fun x => k))
  (at level 100, m at next level, right associativity,
   format "'[v' x  <-  m  ;;  '/' k ']'").
Notation "m ;; k" := (bind m (fun _ => k))
  (at level 100, right associativity,
   format "'[v' m  ;;  '/' k ']'").

Section Program.
Context `{H : Host}.

(** *** Effects *)

Definition setFs (fs : FS) (w : World) : World :=
  {| w_fs := fs; w_ticks := w_ticks w; w_console := w_console w;
     w_exitCode := w_exitCode w |}.

Definition tick (w : World) : World :=
  {| w_fs := w_fs w; w_ticks := S (w_ticks w); w_console := w_console w;
     w_exitCode := w_exitCode w |}.

Definition print (o : output) (w : World) : World :=
  {| w_fs := w_fs w; w_ticks := w_ticks w; w_console := w_console w ++ [o];
     w_exitCode := w_exitCode w |}.

Definition setExitCode (c : Z) (w : World) : World :=
  {| w_fs := w_fs w; w_ticks := w_ticks w; w_console := w_console w;
     w_exitCode := Some c |}.

Definition existsSync (p : string) : M bool :=
  fun w => (Normal (fs_existsSync (w_fs w) p), w).

Definition readFileSync (p : string) : M Buffer :=
  fun w => (fs_readFileSync (w_fs w) p, w).

Definition writeFileSync (p data : string) : M unit :=
  fun w =>
    match fs_writeFileSync (w_fs w) p data with
    | Normal fs' => (Normal tt, setFs fs' w)
    | Throw e => (Throw e, w)
    end.

Definition mkdirSync (p : string) : M unit :=
  fun w =>
    match fs_mkdirSync (w_fs w) p with
    | Normal fs' => (Normal tt, setFs fs' w)
    | Throw e => (Throw e, w)
    end.

Definition requireResolve (request : string) (paths : list string) : M string :=
  fun w => (require_resolve (w_fs w) request paths, w).

Definition performanceNow : M number :=
  fun w => (Normal (performance_now (w_ticks w)), tick w).

Definition newDateToISOString : M string :=
  fun w => (Normal (Date_toISOString (w_ticks w)), tick w).

Definition console_log (line : string) : M unit :=
  fun w => (Normal tt, print (Stdout line) w).

Definition console_error (line : string) : M unit :=
  fun w => (Normal tt, print (Stderr line) w).

Definition console_error_exn (e : exn) : M unit :=
  fun w => (Normal tt, print (StderrError e) w).

Definition when (b : bool) (m : M unit) : M unit := if b then m else ret tt.

(** [for (const x of xs) { ... }], the loop body threading the variables it
    assigns; a throw leaves the loop. *)
Fixpoint for_of {A S : Type} (xs : list A) (s : S) (body : A -> S -> M S) : M S :=
  match xs with
  | [] => ret s
  | x :: xs' => s' <- body x s ;; for_of xs' s' body
  end.

(** [array.push(x)] *)
Definition push {A} (array : list A) (x : A) : list A := array ++ [x].

(** [Array.from({ length }, (_, index) => f index)] *)
Definition Array_from {A} (length : nat) (f : Z -> A) : list A :=
  map f (seqZ 0 (Z.of_nat length)).

(** [array.join(separator)] on strings *)
Definition join (separator : string) (array : list string) : string :=
  String.concat separator array.

(** *** Lines 11-13 *)

Definition repoRoot : string := path_resolve [module_dirname; ".."].
Definition chartsDir : string := path_join [repoRoot; "charts"].
Definition verbose : bool := bool_decide (env_BENCHMARK_VERBOSE = Some "1").

(** *** The artifact resolver: lines 15-62 *)

(** An element of [candidates]. *)
Record Candidate : Type := {
  c_pathSegments : option (list string);
  c_displayName : option string;
}.

(** The argument of [createPackageFile]; an absent property is [None], and
    [candidates] may hold [null] or [undefined] entries. *)
Record PackageFileSpec : Type := {
  s_id : string;
  s_displayName : option string;
  s_packageName : string;
  s_pathSegments : option (list string);
  s_candidates : option (list (option Candidate));
}.

(** An element of [candidateList]: its display name is settled. *)
Record ListedCandidate : Type := {
  lc_pathSegments : option (list string);
  lc_displayName : string;
}.

(** An element of [files]. *)
Record PackageFile : Type := {
  pf_id : string;
  pf_displayName : string;
  pf_absolutePath : string;
  pf_relativePath : string;
}.

(** Reading [candidate.pathSegments] to join or spread it: a TypeError when
    the property is absent. *)
Definition pathSegmentsOf (segments : option (list string)) : completion (list string) :=
  match segments with
  | Some l => Normal l
  | None => Throw (TypeError "candidate.pathSegments is undefined")
  end.

Definition resolvePackageFile (packageName : string) (pathSegments : list string) : M string :=
  packageJsonPath <- requireResolve (path_join [packageName; "package.json"]) [repoRoot] ;;
  let packageRoot := path_dirname packageJsonPath in
  ret (path_join (packageRoot :: pathSegments)).

(** The callback of [.map] at lines 37-41. *)
Definition listCandidate (packageName : string) (candidate : Candidate) : completion ListedCandidate :=
  match c_displayName candidate with
  | Some displayName =>
      Normal {| lc_pathSegments := c_pathSegments candidate; lc_displayName := displayName |}
  | None =>
      match pathSegmentsOf (c_pathSegments candidate) with
      | Normal segments =>
          Normal {| lc_pathSegments := c_pathSegments candidate;
                    lc_displayName := packageName +:+ "/" +:+ join "/" segments |}
      | Throw e => Throw e
      end
  end.

(** [array.map(f)] with a callback that may throw: left to right, the first
    throw ends it. *)
Fixpoint mapC {A B} (f : A -> completion B) (l : list A) : completion (list B) :=
  match l with
  | [] => Normal []
  | x :: l' =>
      match f x with
      | Normal y =>
          match mapC f l' with
          | Normal ys => Normal (y :: ys)
          | Throw e => Throw e
          end
      | Throw e => Throw e
      end
  end.

(** [candidateList]: lines 30-41.  [.filter(Boolean)] drops the [null] and
    [undefined] entries. *)
Definition candidateList (spec : PackageFileSpec) : completion (list ListedCandidate) :=
  let declared :=
    match s_candidates spec with
    | Some candidates => candidates
    | None => [Some {| c_pathSegments := s_pathSegments spec;
                       c_displayName := s_displayName spec |}]
    end in
  mapC (listCandidate (s_packageName spec)) (omap id declared).

(** The loop of lines 43-53: [Some file] when an iteration returns, [None]
    when the loop runs to its end. *)
Fixpoint firstExisting (id packageName : string) (candidates : list ListedCandidate)
  : M (option PackageFile) :=
  match candidates with
  | [] => ret None
  | candidate :: rest =>
      pathSegments <- call (pathSegmentsOf (lc_pathSegments candidate)) ;;
      absolutePath <- resolvePackageFile packageName pathSegments ;;
      found <- existsSync absolutePath ;;
      if found then
        ret (Some {| pf_id := id;
                     pf_displayName := lc_displayName candidate;
                     pf_absolutePath := absolutePath;
                     pf_relativePath := path_relative repoRoot absolutePath |})
      else firstExisting id packageName rest
  end.

(** [attempted]: lines 55-57. *)
Definition attempted (packageName : string) (candidates : list ListedCandidate)
  : completion (list string) :=
  mapC (fun candidate =>
          match pathSegmentsOf (lc_pathSegments candidate) with
          | Normal pathSegments => Normal (path_join (packageName :: pathSegments))
          | Throw e => Throw e
          end) candidates.

(** The message of the error thrown at lines 59-61. *)
Definition notFoundMessage (packageName : string) (tried : list string) : string :=
  "Required file not found for " +:+ packageName +:+ ". Tried: " +:+ join ", " tried.

Definition createPackageFile (spec : PackageFileSpec) : M PackageFile :=
  candidates <- call (candidateList spec) ;;
  hit <- firstExisting (s_id spec) (s_packageName spec) candidates ;;
  match hit with
  | Some file => ret file
  | None =>
      tried <- call (attempted (s_packageName spec) candidates) ;;
      throw (Error (notFoundMessage (s_packageName spec) tried))
  end.

(** The arguments of the nine [createPackageFile] calls of lines 64-142. *)
Definition single (id displayName packageName : string) (pathSegments : list string)
  : PackageFileSpec :=
  {| s_id := id; s_displayName := Some displayName; s_packageName := packageName;
     s_pathSegments := Some pathSegments; s_candidates := None |}.

Definition fileSpecs : list PackageFileSpec := [
  single "jquery" "jquery/dist/jquery.min.js" "jquery" ["dist"; "jquery.min.js"];
  {| s_id := "noto-sans-jp";
     s_displayName := Some "@expo-google-fonts/noto-sans-jp/NotoSansJP_400Regular.ttf";
     s_packageName := "@expo-google-fonts/noto-sans-jp";
     s_pathSegments := None;
     s_candidates := Some [
       Some {| c_pathSegments := Some ["400Regular"; "NotoSansJP_400Regular.ttf"];
               c_displayName := None |};
       Some {| c_pathSegments := Some ["NotoSansJP_400Regular.ttf"];
               c_displayName := None |} ] |};
  single "react" "react/umd/react.production.min.js" "react" ["umd"; "react.production.min.js"];
  single "moment" "moment/min/moment.min.js" "moment" ["min"; "moment.min.js"];
  single "vue" "vue/dist/vue.global.prod.js" "vue" ["dist"; "vue.global.prod.js"];
  single "lodash" "lodash/lodash.min.js" "lodash" ["lodash.min.js"];
  single "normalize-css" "normalize.css/normalize.css" "normalize.css" ["normalize.css"];
  single "bootstrap" "bootstrap/dist/css/bootstrap.min.css" "bootstrap"
         ["dist"; "css"; "bootstrap.min.css"];
  {| s_id := "tailwind-config";
     s_displayName := None;
     s_packageName := "tailwindcss";
     s_pathSegments := None;
     s_candidates := Some [
       Some {| c_pathSegments := Some ["stubs"; "config.full.js"];
               c_displayName := Some "tailwindcss/stubs/config.full.js" |};
       Some {| c_pathSegments := Some ["theme.css"];
               c_displayName := Some "tailwindcss/theme.css" |};
       Some {| c_pathSegments := Some ["index.css"];
               c_displayName := Some "tailwindcss/index.css" |};
       Some {| c_pathSegments := Some ["utilities.css"];
               c_displayName := Some "tailwindcss/utilities.css" |} ] |}
].

(** [files]: the array literal of lines 64-142, its elements evaluated in
    order. *)
Definition resolveAll (specs : list PackageFileSpec) : M (list PackageFile) :=
  for_of specs [] (fun spec files => file <- createPackageFile spec ;; ret (push files file)).

Definition files : M (list PackageFile) := resolveAll fileSpecs.

(** *** The algorithm registry: lines 144-174 *)

Record Algorithm : Type := {
  alg_name : string;
  alg_levels : list Z;
  alg_compress : Buffer -> Z -> completion Buffer;
}.

Definition algorithms : list Algorithm := [
  {| alg_name := "gzip";
     alg_levels := Array_from 9 (fun index => index + 1);
     alg_compress := fun buffer level => zlib_gzipSync buffer level |};
  {| alg_name := "brotli";
     alg_levels := Array_from 12 (fun index => index);
     alg_compress := fun buffer level => zlib_brotliCompressSync buffer level |};
  {| alg_name := "zstd";
     alg_levels := Array_from 22 (fun index => index + 1);
     alg_compress := fun buffer level =>
       match zlib_zstdCompressSync with
       | Some zstdCompressSync => zstdCompressSync buffer level
       | None => Throw (TypeError "zlib.zstdCompressSync is not a function")
       end |}
].

(** *** Helpers: lines 183-257 *)

Definition ensureFile (filePath : string) : M unit :=
  found <- existsSync filePath ;;
  if negb found then throw (Error ("Required file not found: " +:+ filePath))
  else ret tt.

(** [toLowerCase] and [toUpperCase] on the ASCII letters; the strings of the
    script are ASCII. *)
Definition toLowerCaseChar (c : ascii) : ascii :=
  let n := nat_of_ascii c in
  if ((65 <=? n) && (n <=? 90))%nat then ascii_of_nat (n + 32) else c.

Definition toUpperCaseChar (c : ascii) : ascii :=
  let n := nat_of_ascii c in
  if ((97 <=? n) && (n <=? 122))%nat then ascii_of_nat (n - 32) else c.

Fixpoint mapString (f : ascii -> ascii) (s : string) : string :=
  match s with
  | EmptyString => EmptyString
  | String c s' => String (f c) (mapString f s')
  end.

Definition toLowerCase : string -> string := mapString toLowerCaseChar.
Definition toUpperCase : string -> string := mapString toUpperCaseChar.

(** the class [a-z0-9] *)
Definition isLowerAlnum (c : ascii) : bool :=
  let n := nat_of_ascii c in
  (((97 <=? n) && (n <=? 122)) || ((48 <=? n) && (n <=? 57)))%nat.

(** [.replace(/[^a-z0-9]+/g, '-')]; [inRun] says the previous character was
    already replaced. *)
Fixpoint replaceRuns (inRun : bool) (s : string) : string :=
  match s with
  | EmptyString => EmptyString
  | String c s' =>
      if isLowerAlnum c then String c (replaceRuns false s')
      else if inRun then replaceRuns true s'
      else String "-" (replaceRuns true s')
  end.

Fixpoint dropDashes (s : string) : string :=
  match s with
  | String "-" s' => dropDashes s'
  | _ => s
  end.

(** [.replace(/^-+|-+$/g, '')] *)
Definition trimDashes (s : string) : string :=
  String.rev (dropDashes (String.rev (dropDashes s))).

Definition slugify (value : string) : string :=
  trimDashes (replaceRuns false (toLowerCase value)).

Definition formatNumber (value : number) (fractionDigits : nat) : string :=
  Number_toFixed value fractionDigits.

Definition chartConfiguration (fileResult : FileResult) : ChartConfiguration :=
  {| cfg_type := "line";
     cfg_datasets :=
       map (fun algorithm =>
              {| ds_label := toUpperCase (ar_name algorithm);
                 ds_data := map (fun m => (m_level m, m_ratio m))
                                (ar_measurements algorithm) |})
           (fr_algorithms fileResult);
     cfg_title := fr_displayName fileResult +:+ " Compression Ratio" |}.

Definition generateChart (fileResult : FileResult) : M string :=
  let configuration := chartConfiguration fileResult in
  call (renderToBufferSync configuration "image/svg+xml").

(** *** [main]: lines 259-368 *)

(** The body of the loop over the levels: lines 283-296. *)
Definition measure (algorithm : Algorithm) (originalBuffer : Buffer) (originalSize : Z)
    (level : Z) : M Measurement :=
  start <- performanceNow ;;
  compressed <- call (alg_compress algorithm originalBuffer level) ;;
  end_ <- performanceNow ;;
  let compressedSize := Buffer_length compressed in
  let durationMs := js_sub end_ start in
  let ratio := js_div (number_of_Z compressedSize) (number_of_Z originalSize) in
  ret {| m_level := level; m_time := durationMs; m_size := compressedSize;
         m_ratio := ratio |}.

(** The loop over the levels of one algorithm: lines 280-297. *)
Definition sweepLevels (algorithm : Algorithm) (originalBuffer : Buffer) (originalSize : Z)
  : M (list Measurement) :=
  for_of (alg_levels algorithm) [] (fun level measurements =>
    m <- measure algorithm originalBuffer originalSize level ;;
    ret (push measurements m)).

(** The body of the loop over the registry: lines 280-308. *)
Definition sweepAlgorithm (originalBuffer : Buffer) (originalSize : Z)
    (algorithm : Algorithm) (algorithmResults : list AlgorithmResult)
  : M (list AlgorithmResult) :=
  measurements <- sweepLevels algorithm originalBuffer originalSize ;;
  let algorithmResults :=
    push algorithmResults
         {| ar_name := alg_name algorithm; ar_measurements := measurements |} in
  when verbose
    (console_log ("  Completed " +:+ alg_name algorithm +:+ " levels ("
                  +:+ pretty (length measurements) +:+ " variants)")) ;;
  ret algorithmResults.

(** The sweep of one file: lines 277-309.  [main] runs it on the registry
    [algorithms]. *)
Definition sweep (registry : list Algorithm) (originalBuffer : Buffer) (originalSize : Z)
  : M (list AlgorithmResult) :=
  for_of registry [] (sweepAlgorithm originalBuffer originalSize).

(** The body of the loop over the files: lines 267-336. *)
Definition processFile (file : PackageFile) (results : list RunEntry) : M (list RunEntry) :=
  let absolutePath := pf_absolutePath file in
  ensureFile absolutePath ;;
  originalBuffer <- readFileSync absolutePath ;;
  let originalSize := Buffer_length originalBuffer in
  when verbose
    (console_log ("Processing " +:+ pf_displayName file +:+ " ("
                  +:+ pretty originalSize +:+ " bytes)")) ;;
  algorithmResults <- sweep algorithms originalBuffer originalSize ;;
  let fileResult :=
    {| fr_id := pf_id file; fr_displayName := pf_displayName file;
       fr_originalSize := originalSize; fr_algorithms := algorithmResults |} in
  when verbose (console_log "  Generating chart") ;;
  chartSvg <- try_catch (generateChart fileResult) (fun error =>
    console_error ("  Failed to generate chart for " +:+ pf_displayName file) ;;
    throw error) ;;
  let chartPath := path_join [chartsDir; slugify (pf_displayName file) +:+ ".svg"] in
  writeFileSync chartPath chartSvg ;;
  when verbose (console_log ("  Saved chart to " +:+ chartPath)) ;;
  ret (push results
            {| re_file := fileResult; re_chartPath := path_relative repoRoot chartPath |}).

(** The table rows of one algorithm: lines 357-361. *)
Definition measurementRows (algorithm : AlgorithmResult) : list string :=
  map (fun measurement =>
         "| " +:+ ar_name algorithm +:+ " | " +:+ pretty (m_level measurement)
         +:+ " | " +:+ formatNumber (m_time measurement) 3
         +:+ " | " +:+ pretty (m_size measurement)
         +:+ " | " +:+ formatNumber (m_ratio measurement) 4 +:+ " |")
      (ar_measurements algorithm).

(** The lines pushed for one element of [results]: lines 348-364. *)
Definition sectionLines (result : RunEntry) : list string :=
  let file := re_file result in
  [ "## " +:+ fr_displayName file;
    "";
    "- Original size: " +:+ pretty (fr_originalSize file) +:+ " bytes";
    "- Chart: ![Compression ratio chart for " +:+ fr_displayName file +:+ "]("
      +:+ re_chartPath result +:+ ")";
    "";
    "| Algorithm | Level | Time (ms) | Size (bytes) | Compression Ratio |";
    "| --- | --- | --- | --- | --- |" ]
  ++ concat (map measurementRows (fr_algorithms file))
  ++ [ "" ].

(** The lines pushed before the loop over [results]: lines 340-345. *)
Definition headerLines (now : string) : list string :=
  [ "# Node Compression Benchmark";
    "";
    "Last updated: " +:+ now;
    "";
    "This benchmark measures compression time, output size, and compression ratios for several popular npm packages across all gzip, Brotli, and Zstandard compression levels.";
    "" ].

(** [readmeLines] at line 367. *)
Definition readmeLines (now : string) (results : list RunEntry) : list string :=
  headerLines now ++ concat (map sectionLines results).

(** the line feed of [readmeLines.join] *)
Definition LF : string := String (ascii_of_nat 10) EmptyString.

(** The loop over the files: lines 264-337. *)
Definition processFiles (files : list PackageFile) : M (list RunEntry) :=
  for_of files [] processFile.

(** Lines 260-262. *)
Definition ensureChartsDir : M unit :=
  found <- existsSync chartsDir ;;
  if negb found then mkdirSync chartsDir else ret tt.

Definition main (files : list PackageFile) : M unit :=
  ensureChartsDir ;;
  results <- processFiles files ;;
  now <- newDateToISOString ;;
  writeFileSync (path_join [repoRoot; "README.md"]) (join LF (readmeLines now results)).

(** *** The script: lines 7-9, 64-142 and 370-373 *)

(** [main().catch((error) => { ... })]: lines 370-373. *)
Definition mainCatch (files : list PackageFile) : M unit :=
  try_catch (main files) (fun error =>
    console_error_exn error ;;
    fun w => (Normal tt, setExitCode 1 w)).

Definition script (specs : list PackageFileSpec) : M unit :=
  match zlib_zstdCompressSync with
  | None => throw (Error "Zstandard compression requires Node.js v22 or later.")
  | Some _ => ret tt
  end ;;
  files <- resolveAll specs ;;
  mainCatch files.

(** Node running a script: an exception that reaches the top level is
    printed to stderr and the process exits with status 1. *)
Definition node (program : M unit) (w : World) : World :=
  match program w with
  | (Normal _, w') => w'
  | (Throw e, w') => setExitCode 1 (print (StderrError e) w')
  end.

(** The exit status of the process. *)
Definition exitStatus (w : World) : Z := default 0 (w_exitCode w).

End Program.

(** ** The superseded variant: [scripts/benchmark.js]

    It declares the paths of its files instead of resolving them; its
    helpers [ensureFile], [slugify], [formatNumber] and [generateChart]
    (lines 102-176) are the declarations of the current variant, character
    for character, and are shared here.  Its registry and its [main] are
    embedded from its own text. *)

Module Superseded.
Section Program.
Context `{H : Host}.

(** An element of [files]: lines 15-61. *)
Record DeclaredFile : Type := {
  df_id : string;
  df_displayName : string;
  df_relativePath : string;
}.

Definition files : list DeclaredFile := [
  {| df_id := "jquery";
     df_displayName := "jquery/dist/jquery.min.js";
     df_relativePath := path_join ["node_modules"; "jquery"; "dist"; "jquery.min.js"] |};
  {| df_id := "noto-sans-jp";
     df_displayName := "@expo-google-fonts/noto-sans-jp/NotoSansJP_400Regular.ttf";
     df_relativePath :=
       path_join ["node_modules"; "@expo-google-fonts"; "noto-sans-jp";
                  "NotoSansJP_400Regular.ttf"] |};
  {| df_id := "react";
     df_displayName := "react/umd/react.production.min.js";
     df_relativePath := path_join ["node_modules"; "react"; "umd"; "react.production.min.js"] |};
  {| df_id := "moment";
     df_displayName := "moment/min/moment.min.js";
     df_relativePath := path_join ["node_modules"; "moment"; "min"; "moment.min.js"] |};
  {| df_id := "vue";
     df_displayName := "vue/dist/vue.global.prod.js";
     df_relativePath := path_join ["node_modules"; "vue"; "dist"; "vue.global.prod.js"] |};
  {| df_id := "lodash";
     df_displayName := "lodash/lodash.min.js";
     df_relativePath := path_join ["node_modules"; "lodash"; "lodash.min.js"] |};
  {| df_id := "normalize-css";
     df_displayName := "normalize.css/normalize.css";
     df_relativePath := path_join ["node_modules"; "normalize.css"; "normalize.css"] |};
  {| df_id := "bootstrap";
     df_displayName := "bootstrap/dist/css/bootstrap.min.css";
     df_relativePath :=
       path_join ["node_modules"; "bootstrap"; "dist"; "css"; "bootstrap.min.css"] |};
  {| df_id := "tailwind-config";
     df_displayName := "tailwindcss/stubs/config.full.js";
     df_relativePath := path_join ["node_modules"; "tailwindcss"; "stubs"; "config.full.js"] |}
].

(** Lines 63-93. *)
Definition algorithms : list Algorithm := [
  {| alg_name := "gzip";
     alg_levels := Array_from 9 (fun index => index + 1);
     alg_compress := fun buffer level => zlib_gzipSync buffer level |};
  {| alg_name := "brotli";
     alg_levels := Array_from 12 (fun index => index);
     alg_compress := fun buffer level => zlib_brotliCompressSync buffer level |};
  {| alg_name := "zstd";
     alg_levels := Array_from 22 (fun index => index + 1);
     alg_compress := fun buffer level =>
       match zlib_zstdCompressSync with
       | Some zstdCompressSync => zstdCompressSync buffer level
       | None => Throw (TypeError "zlib.zstdCompressSync is not a function")
       end |}
].

(** Lines 202-215. *)
Definition measure (algorithm : Algorithm) (originalBuffer : Buffer) (originalSize : Z)
    (level : Z) : M Measurement :=
  start <- performanceNow ;;
  compressed <- call (alg_compress algorithm originalBuffer level) ;;
  end_ <- performanceNow ;;
  let compressedSize := Buffer_length compressed in
  let durationMs := js_sub end_ start in
  let ratio := js_div (number_of_Z compressedSize) (number_of_Z originalSize) in
  ret {| m_level := level; m_time := durationMs; m_size := compressedSize;
         m_ratio := ratio |}.

(** Lines 199-216. *)
Definition sweepLevels (algorithm : Algorithm) (originalBuffer : Buffer) (originalSize : Z)
  : M (list Measurement) :=
  for_of (alg_levels algorithm) [] (fun level measurements =>
    m <- measure algorithm originalBuffer originalSize level ;;
    ret (push measurements m)).

(** Lines 199-227. *)
Definition sweepAlgorithm (originalBuffer : Buffer) (originalSize : Z)
    (algorithm : Algorithm) (algorithmResults : list AlgorithmResult)
  : M (list AlgorithmResult) :=
  measurements <- sweepLevels algorithm originalBuffer originalSize ;;
  let algorithmResults :=
    push algorithmResults
         {| ar_name := alg_name algorithm; ar_measurements := measurements |} in
  when verbose
    (console_log ("  Completed " +:+ alg_name algorithm +:+ " levels ("
                  +:+ pretty (length measurements) +:+ " variants)")) ;;
  ret algorithmResults.

(** Lines 196-228. *)
Definition sweep (registry : list Algorithm) (originalBuffer : Buffer) (originalSize : Z)
  : M (list AlgorithmResult) :=
  for_of registry [] (sweepAlgorithm originalBuffer originalSize).

(** Lines 186-255. *)
Definition processFile (file : DeclaredFile) (results : list RunEntry) : M (list RunEntry) :=
  let absolutePath := path_join [repoRoot; df_relativePath file] in
  ensureFile absolutePath ;;
  originalBuffer <- readFileSync absolutePath ;;
  let originalSize := Buffer_length originalBuffer in
  when verbose
    (console_log ("Processing " +:+ df_displayName file +:+ " ("
                  +:+ pretty originalSize +:+ " bytes)")) ;;
  algorithmResults <- sweep algorithms originalBuffer originalSize ;;
  let fileResult :=
    {| fr_id := df_id file; fr_displayName := df_displayName file;
       fr_originalSize := originalSize; fr_algorithms := algorithmResults |} in
  when verbose (console_log "  Generating chart") ;;
  chartSvg <- try_catch (generateChart fileResult) (fun error =>
    console_error ("  Failed to generate chart for " +:+ df_displayName file) ;;
    throw error) ;;
  let chartPath := path_join [chartsDir; slugify (df_displayName file) +:+ ".svg"] in
  writeFileSync chartPath chartSvg ;;
  when verbose (console_log ("  Saved chart to " +:+ chartPath)) ;;
  ret (push results
            {| re_file := fileResult; re_chartPath := path_relative repoRoot chartPath |}).

(** Lines 178-287; the report lines (258-284) are those of the current
    variant. *)
Definition main : M unit :=
  ensureChartsDir ;;
  results <- for_of files [] processFile ;;
  now <- newDateToISOString ;;
  writeFileSync (path_join [repoRoot; "README.md"]) (join LF (readmeLines now results)).

End Program.
End Superseded.

(** ** Vocabulary of the statements *)

(** The contiguous integer range [lo..hi]. *)
Definition range (lo hi : Z) : list Z := seqZ lo (hi - lo + 1).

(** [m] is the measurement of [algorithm] at [level] on [buffer]: its size
    is the length of what [compress] returned, and its ratio is that size
    divided by [originalSize]. *)
Definition measured (algorithm : Algorithm) (buffer : Buffer) (originalSize : Z)
    (level : Z) (m : Measurement) : Prop :=
  m_level m = level /\
  exists compressed,
    alg_compress algorithm buffer level = Normal compressed /\
    m_size m = Buffer_length compressed /\
    m_ratio m = js_div (number_of_Z (Buffer_length compressed)) (number_of_Z originalSize).

(** [r] is the result of [algorithm] on [buffer]: one measurement per
    declared level, in the declared order. *)
Definition sweptAs (buffer : Buffer) (originalSize : Z)
    (algorithm : Algorithm) (r : AlgorithmResult) : Prop :=
  ar_name r = alg_name algorithm /\
  Forall2 (measured algorithm buffer originalSize) (alg_levels algorithm) (ar_measurements r).

(** [m] is the measurement of [algorithm] at [level] on [buffer], its ratio
    is its size divided by the length of [buffer], and, for lengths that
    buffers can have, the ratio is positive when the compressed output is
    not empty and zero when it is empty. *)
Definition ratioOf (buffer : Buffer) (algorithm : Algorithm) (level : Z) (m : Measurement)
  : Prop :=
  exists compressed,
    alg_compress algorithm buffer level = Normal compressed /\
    m_size m = Buffer_length compressed /\
    m_ratio m = js_div (number_of_Z (m_size m)) (number_of_Z (Buffer_length buffer)) /\
    (0 < Buffer_length buffer <= kMaxLength -> 0 < m_size m <= kMaxLength ->
     js_lt zero (m_ratio m) = true) /\
    (0 < Buffer_length buffer <= kMaxLength -> m_size m = 0 -> m_ratio m = zero).

(** The levels of a result, in the order of its measurements. *)
Definition levelsOf (r : AlgorithmResult) : list Z := map m_level (ar_measurements r).

(** The candidates a specification declares, in declared order: its
    [candidates] without the [null] entries, or the single candidate made
    of its own [pathSegments] and [displayName]. *)
Definition declaredCandidates (spec : PackageFileSpec) : list Candidate :=
  omap id
    match s_candidates spec with
    | Some candidates => candidates
    | None => [Some {| c_pathSegments := s_pathSegments spec;
                       c_displayName := s_displayName spec |}]
    end.

(** A candidate that has path segments. *)
Definition hasSegments (candidate : Candidate) : Prop :=
  is_Some (c_pathSegments candidate).

Definition segmentsOf (candidate : Candidate) : list string :=
  default [] (c_pathSegments candidate).

(** The display name of a candidate: its own, or the default derived from
    the package name and the path segments. *)
Definition displayNameOf (packageName : string) (candidate : Candidate) : string :=
  match c_displayName candidate with
  | Some displayName => displayName
  | None => packageName +:+ "/" +:+ join "/" (segmentsOf candidate)
  end.

(** The numbers written [0.5], [0.4] and [0.3]: the binary64 values nearest
    to these decimals. *)
#[warnings="-inexact-float"]
Definition decimals_05_04_03 : list number :=
  [Prim2SF 0.5%float; Prim2SF 0.4%float; Prim2SF 0.3%float].

(** A measurement, a result and an entry of [results] without the times. *)
Definition timeless (m : Measurement) : Z * Z * number :=
  (m_level m, m_size m, m_ratio m).

Definition timelessResult (r : AlgorithmResult) : string * list (Z * Z * number) :=
  (ar_name r, map timeless (ar_measurements r)).

Definition timelessEntry (entry : RunEntry)
  : string * string * Z * list (string * list (Z * Z * number)) * string :=
  (fr_id (re_file entry), fr_displayName (re_file entry), fr_originalSize (re_file entry),
   map timelessResult (fr_algorithms (re_file entry)), re_chartPath entry).

(** Two outcomes agree up to [erase]: both are normal, with values that
    [erase] identifies, or both are throws of the same error. *)
Definition sameOutcome {A B} (erase : A -> B) (c1 c2 : completion A) : Prop :=
  match c1, c2 with
  | Normal a1, Normal a2 => erase a1 = erase a2
  | Throw e1, Throw e2 => e1 = e2
  | _, _ => False
  end.

(** An outcome that is normal, and its value (or [d] for a throw). *)
Definition isNormal {A} (c : completion A) : bool :=
  match c with
  | Normal _ => true
  | Throw _ => false
  end.

Definition normalOr {A} (d : A) (c : completion A) : A :=
  match c with
  | Normal a => a
  | Throw _ => d
  end.

(** [s] occurs in [t]. *)
Definition occursIn (s t : string) : Prop :=
  exists before after, t = before +:+ s +:+ after.

(** [occursIn], decided: [s] is a prefix of [t] or occurs in its tail. *)
Fixpoint occursInb (s t : string) : bool :=
  String.prefix s t ||
  match t with
  | EmptyString => false
  | String _ t' => occursInb s t'
  end.

(** A codec that never returns an empty buffer.  The outputs of gzip,
    Brotli and Zstandard always hold the framing of their format, even for
    an empty input. *)
Definition neverEmpty (compress : Buffer -> Z -> completion Buffer) : Prop :=
  forall buffer level compressed,
    compress buffer level = Normal compressed -> compressed <> [].

(** [m] is the measurement of [algorithm] at [level] on [buffer]: its size
    is the length of what [compress] returned, its ratio is that size
    divided by the length of [buffer], and the ratio is greater than zero
    when the length of [buffer] is (for lengths that buffers can have). *)
Definition ratioOverOriginal (buffer : Buffer) (algorithm : Algorithm) (level : Z)
    (m : Measurement) : Prop :=
  exists compressed,
    alg_compress algorithm buffer level = Normal compressed /\
    m_size m = Buffer_length compressed /\
    m_ratio m = js_div (number_of_Z (m_size m)) (number_of_Z (Buffer_length buffer)) /\
    (0 < Buffer_length buffer <= kMaxLength -> m_size m <= kMaxLength ->
     js_lt zero (m_ratio m) = true).

(** The measurements of a sweep, one algorithm after the other, and the
    levels a registry declares, in the same order. *)
Definition allMeasurements (rs : list AlgorithmResult) : list Measurement :=
  concat (map ar_measurements rs).

Definition declaredLevels (registry : list Algorithm) : list Z :=
  concat (map alg_levels registry).

(** The characters of a string, and the dash that [slugify] puts in. *)
Definition chars : string -> list ascii := list_ascii_of_string.

Definition dash : ascii := "-"%char.

(** A character of a slug: a lower-case letter, a digit or a dash. *)
Definition slugChar (c : ascii) : Prop := isLowerAlnum c = true \/ c = dash.

(** Two dashes in a row somewhere in [l]. *)
Definition hasDoubleDash (l : list ascii) : Prop :=
  exists l1 l2, l = l1 ++ dash :: dash :: l2.

(** The shape of a slug: characters of a slug only, no dash at either end,
    no two dashes in a row. *)
Definition slugShaped (l : list ascii) : Prop :=
  Forall slugChar l /\ head l <> Some dash /\ last l <> Some dash /\ ~ hasDoubleDash l.

Section Vocabulary.
Context `{H : Host}.

(** The path probed for a candidate, given the resolved [package.json]. *)
Definition probed (packageJsonPath : string) (candidate : Candidate) : string :=
  path_join (path_dirname packageJsonPath :: segmentsOf candidate).

(** The package-relative path listed for a candidate in the error. *)
Definition listed (packageName : string) (candidate : Candidate) : string :=
  path_join (packageName :: segmentsOf candidate).

Definition toListed (packageName : string) (candidate : Candidate) : ListedCandidate :=
  {| lc_pathSegments := c_pathSegments candidate;
     lc_displayName := displayNameOf packageName candidate |}.

(** The world after [if (verbose) console.log(line)]. *)
Definition logVerbose (line : string) (w : World) : World :=
  if verbose then print (Stdout line) w else w.

(** The file result assembled at lines 311-316. *)
Definition fileResultOf (file : PackageFile) (buffer : Buffer)
    (algorithmResults : list AlgorithmResult) : FileResult :=
  {| fr_id := pf_id file; fr_displayName := pf_displayName file;
     fr_originalSize := Buffer_length buffer; fr_algorithms := algorithmResults |}.

(** The path of the chart of a file: line 329. *)
Definition chartPathOf (file : PackageFile) : string :=
  path_join [chartsDir; slugify (pf_displayName file) +:+ ".svg"].

(** The world in which the sweep of a file starts: line 274 has run. *)
Definition sweepStart (file : PackageFile) (buffer : Buffer) (w : World) : World :=
  logVerbose ("Processing " +:+ pf_displayName file +:+ " ("
              +:+ pretty (Buffer_length buffer) +:+ " bytes)") w.

(** The world in which the catch block of lines 325-328 ends, the sweep
    having ended in [w]. *)
Definition renderFailed (file : PackageFile) (w : World) : World :=
  print (Stderr ("  Failed to generate chart for " +:+ pf_displayName file))
        (logVerbose "  Generating chart" w).

(** The three codecs of [zlib] never return an empty buffer. *)
Definition codecsNeverEmpty : Prop :=
  neverEmpty zlib_gzipSync /\
  neverEmpty zlib_brotliCompressSync /\
  forall zstdCompressSync,
    zlib_zstdCompressSync = Some zstdCompressSync -> neverEmpty zstdCompressSync.

(** A declared file of the superseded variant as the current variant would
    hold it: the absolute path is the declared path under the repository
    root ([scripts/benchmark.js], line 187). *)
Definition asPackageFile (file : Superseded.DeclaredFile) : PackageFile :=
  {| pf_id := Superseded.df_id file;
     pf_displayName := Superseded.df_displayName file;
     pf_absolutePath := path_join [repoRoot; Superseded.df_relativePath file];
     pf_relativePath := Superseded.df_relativePath file |}.

End Vocabulary.

(** ** A small concrete host

    A file system as a finite map from paths to entries, paths joined with
    a slash, packages installed under [node_modules] of the repository
    root, and codecs that keep a prefix of their input.  The general
    theorems below quantify over every host; this one runs them. *)

Module Stub.

Inductive entry : Type :=
| File (content : Buffer)
| Dir.

Definition exists_ (fs : gmap string entry) (p : string) : bool :=
  bool_decide (is_Some (fs !! p)).

Definition read (fs : gmap string entry) (p : string) : completion Buffer :=
  match fs !! p with
  | Some (File content) => Normal content
  | Some Dir => Throw (Error ("EISDIR: illegal operation on a directory, read " +:+ p))
  | None => Throw (Error ("ENOENT: no such file or directory, open " +:+ p))
  end.

Definition write (fs : gmap string entry) (p data : string)
  : completion (gmap string entry) :=
  match fs !! p with
  | Some Dir => Throw (Error ("EISDIR: illegal operation on a directory, open " +:+ p))
  | _ => Normal (<[p := File (list_byte_of_string data)]> fs)
  end.

Definition mkdir (fs : gmap string entry) (p : string) : completion (gmap string entry) :=
  match fs !! p with
  | Some (File _) => Throw (Error ("EEXIST: file already exists, mkdir " +:+ p))
  | _ => Normal (<[p := Dir]> fs)
  end.

Definition joinPath (segments : list string) : string := String.concat "/" segments.

(** the part of [p] before its last slash *)
Fixpoint dirnameAux (p : string) : option string :=
  match p with
  | EmptyString => None
  | String c p' =>
      match dirnameAux p' with
      | Some d => Some (String c d)
      | None => if Ascii.eqb c "/" then Some EmptyString else None
      end
  end.

Definition dirname (p : string) : string := default "." (dirnameAux p).

Fixpoint stripPrefix (pre s : string) : option string :=
  match pre, s with
  | EmptyString, _ => Some s
  | String a pre', String b s' => if Ascii.eqb a b then stripPrefix pre' s' else None
  | String _ _, EmptyString => None
  end.

Definition relative (from to : string) : string :=
  default to (stripPrefix (from +:+ "/") to).

Definition resolvePath (segments : list string) : string :=
  match segments with
  | [d; ".."] => dirname d
  | _ => joinPath segments
  end.

Definition resolveRequest (fs : gmap string entry) (request : string) (paths : list string)
  : completion string :=
  match paths with
  | root :: _ =>
      let p := joinPath [root; "node_modules"; request] in
      if exists_ fs p then Normal p
      else Throw (Exn "Error" ("Cannot find module " +:+ request))
  | [] => Throw (Exn "Error" ("Cannot find module " +:+ request))
  end.

(** a codec that keeps the first [length - level] bytes and one more *)
Definition keepPrefix (buffer : Buffer) (level : Z) : completion Buffer :=
  Normal (take (S (length buffer - Z.to_nat level)) (Byte.x00 :: buffer)).

#[local] Instance host : Host := {|
  FS := gmap string entry;
  fs_existsSync := exists_;
  fs_readFileSync := read;
  fs_writeFileSync := write;
  fs_mkdirSync := mkdir;
  require_resolve := resolveRequest;
  path_join := joinPath;
  path_dirname := dirname;
  path_relative := relative;
  path_resolve := resolvePath;
  module_dirname := "/repo/scripts";
  zlib_gzipSync := keepPrefix;
  zlib_brotliCompressSync := keepPrefix;
  zlib_zstdCompressSync := Some keepPrefix;
  performance_now := fun n => number_of_Z (Z.of_nat (n * n));
  renderToBufferSync := fun _ _ => Normal "<svg/>";
  Date_toISOString := fun _ => "2025-01-01T00:00:00.000Z";
  Number_toFixed := fun _ _ => "0.000";
  env_BENCHMARK_VERBOSE := None;
|}.

(** a host that narrates its progress and whose renderer fails for the
    chart of B *)
Definition renderError : exn := Exn "Error" "render failed".

Definition renderAllButB (configuration : ChartConfiguration) (mime : string)
  : completion string :=
  if String.eqb (cfg_title configuration) "pkg-b/b.css Compression Ratio"
  then Throw renderError
  else Normal "<svg/>".

#[local] Instance failingRenderer : Host := {|
  FS := gmap string entry;
  fs_existsSync := exists_;
  fs_readFileSync := read;
  fs_writeFileSync := write;
  fs_mkdirSync := mkdir;
  require_resolve := resolveRequest;
  path_join := joinPath;
  path_dirname := dirname;
  path_relative := relative;
  path_resolve := resolvePath;
  module_dirname := "/repo/scripts";
  zlib_gzipSync := keepPrefix;
  zlib_brotliCompressSync := keepPrefix;
  zlib_zstdCompressSync := Some keepPrefix;
  performance_now := fun n => number_of_Z (Z.of_nat (n * n));
  renderToBufferSync := renderAllButB;
  Date_toISOString := fun _ => "2025-01-01T00:00:00.000Z";
  Number_toFixed := fun _ _ => "0.000";
  env_BENCHMARK_VERBOSE := Some "1";
|}.

Definition world `{Host} (fs : FS) : World :=
  {| w_fs := fs; w_ticks := 0; w_console := []; w_exitCode := None |}.

(** a buffer of [n] zero bytes *)
Definition zeros (n : nat) : Buffer := replicate n Byte.x00.

(** the font package of the registry of files, laid out as its older
    releases are: the file sits at the package root, so that only the
    second declared candidate exists *)
Definition fontSpec : PackageFileSpec :=
  {| s_id := "noto-sans-jp";
     s_displayName := Some "@expo-google-fonts/noto-sans-jp/NotoSansJP_400Regular.ttf";
     s_packageName := "@expo-google-fonts/noto-sans-jp";
     s_pathSegments := None;
     s_candidates := Some [
       Some {| c_pathSegments := Some ["400Regular"; "NotoSansJP_400Regular.ttf"];
               c_displayName := None |};
       Some {| c_pathSegments := Some ["NotoSansJP_400Regular.ttf"];
               c_displayName := None |} ] |}.

Definition fontFs : gmap string entry :=
  <["/repo/node_modules/@expo-google-fonts/noto-sans-jp/package.json" := File []]>
  (<["/repo/node_modules/@expo-google-fonts/noto-sans-jp/NotoSansJP_400Regular.ttf"
     := File (zeros 4)]> ∅).

(** the font package installed without any font file *)
Definition emptyFontFs : gmap string entry :=
  <["/repo/node_modules/@expo-google-fonts/noto-sans-jp/package.json" := File []]> ∅.

(** two resolved files, A declared before B, and a file system that holds
    them *)
Definition fileA : PackageFile :=
  {| pf_id := "a"; pf_displayName := "pkg-a/a.js";
     pf_absolutePath := "/repo/node_modules/pkg-a/a.js";
     pf_relativePath := "node_modules/pkg-a/a.js" |}.

Definition fileB : PackageFile :=
  {| pf_id := "b"; pf_displayName := "pkg-b/b.css";
     pf_absolutePath := "/repo/node_modules/pkg-b/b.css";
     pf_relativePath := "node_modules/pkg-b/b.css" |}.

Definition twoFs : gmap string entry :=
  <["/repo/node_modules/pkg-a/a.js" := File (zeros 3)]>
  (<["/repo/node_modules/pkg-b/b.css" := File (zeros 5)]> ∅).

(** the run of [main] on A and B *)
Definition reportRun : completion unit * @World host :=
  main (H:=host) [fileA; fileB] (world (H:=host) twoFs).

(** a later world with the same file system: the timer has been read seven
    times and the console holds a line *)
Definition later : @World host :=
  @Build_World host twoFs 7 [Stdout "an earlier run"] None.

(** the time of the first measurement of a sweep *)
Definition firstTime (c : completion (list AlgorithmResult)) : option number :=
  match c with
  | Normal ({| ar_measurements := m :: _ |} :: _) => Some (m_time m)
  | _ => None
  end.

(** a third file, declared after B, that the file system does not hold *)
Definition fileC : PackageFile :=
  {| pf_id := "c"; pf_displayName := "pkg-c/c.js";
     pf_absolutePath := "/repo/node_modules/pkg-c/c.js";
     pf_relativePath := "node_modules/pkg-c/c.js" |}.

(** the run of A, B and C with the renderer that fails for B, up to the
    sweep of B *)
Definition failStart : @World failingRenderer :=
  snd (ensureChartsDir (H:=failingRenderer) (world (H:=failingRenderer) twoFs)).

Definition failBefore : completion (list RunEntry) * @World failingRenderer :=
  processFiles (H:=failingRenderer) [fileA] failStart.

Definition failSweep : completion (list AlgorithmResult) * @World failingRenderer :=
  sweep (H:=failingRenderer) (algorithms (H:=failingRenderer)) (zeros 5) 5
        (sweepStart (H:=failingRenderer) fileB (zeros 5) (snd failBefore)).

(** a stub algorithm with levels 1, 2 and 3 whose [compress] returns 500,
    400 and 300 bytes *)
Definition stubAlgorithm : Algorithm :=
  {| alg_name := "stub";
     alg_levels := [1; 2; 3];
     alg_compress := fun _ level =>
       Normal (zeros (if level =? 1 then 500 else if level =? 2 then 400 else 300)) |}.

(** a stub algorithm whose [compress] returns an empty buffer *)
Definition emptyOutput : Algorithm :=
  {| alg_name := "empty"; alg_levels := [1]; alg_compress := fun _ _ => Normal [] |}.

(** the sweep of a 10-byte buffer by the registry, on the concrete host *)
Definition sweepRun : completion (list AlgorithmResult) * @World host :=
  sweep (H:=host) (algorithms (H:=host)) (zeros 10) 10 (world (H:=host) ∅).

Definition sweepResults : list AlgorithmResult :=
  match fst sweepRun with
  | Normal rs => rs
  | Throw _ => []
  end.

(** the concrete host with another [zlib.zstdCompressSync] and another
    [fs.mkdirSync] *)
Definition hostWith (zstdCompressSync : option (Buffer -> Z -> completion Buffer))
    (mkdirSync : gmap string entry -> string -> completion (gmap string entry)) : Host :=
  {| FS := gmap string entry;
     fs_existsSync := exists_;
     fs_readFileSync := read;
     fs_writeFileSync := write;
     fs_mkdirSync := mkdirSync;
     require_resolve := resolveRequest;
     path_join := joinPath;
     path_dirname := dirname;
     path_relative := relative;
     path_resolve := resolvePath;
     module_dirname := "/repo/scripts";
     zlib_gzipSync := keepPrefix;
     zlib_brotliCompressSync := keepPrefix;
     zlib_zstdCompressSync := zstdCompressSync;
     performance_now := fun n => number_of_Z (Z.of_nat (n * n));
     renderToBufferSync := fun _ _ => Normal "<svg/>";
     Date_toISOString := fun _ => "2025-01-01T00:00:00.000Z";
     Number_toFixed := fun _ _ => "0.000";
     env_BENCHMARK_VERBOSE := None |}.

(** a Node older than v22: [zlib] has no [zstdCompressSync] *)
Definition node20 : Host := hostWith None mkdir.

(** a file system that refuses new directories *)
Definition denyMkdir (fs : gmap string entry) (p : string)
  : completion (gmap string entry) :=
  Throw (Error ("EROFS: read-only file system, mkdir " +:+ p)).

Definition readOnly : Host := hostWith (Some keepPrefix) denyMkdir.

(** the file that [fontSpec] resolves to in [fontFs] *)
Definition fontFile : PackageFile :=
  {| pf_id := "noto-sans-jp";
     pf_displayName := "@expo-google-fonts/noto-sans-jp/NotoSansJP_400Regular.ttf";
     pf_absolutePath :=
       "/repo/node_modules/@expo-google-fonts/noto-sans-jp/NotoSansJP_400Regular.ttf";
     pf_relativePath :=
       "node_modules/@expo-google-fonts/noto-sans-jp/NotoSansJP_400Regular.ttf" |}.

(** the two candidates of [fontSpec] *)
Definition nestedFont : Candidate :=
  {| c_pathSegments := Some ["400Regular"; "NotoSansJP_400Regular.ttf"];
     c_displayName := None |}.

Definition rootFont : Candidate :=
  {| c_pathSegments := Some ["NotoSansJP_400Regular.ttf"]; c_displayName := None |}.

(** specifications of the font package: one whose candidates are all
    [null], one with a [null] among its candidates and fields that
    [candidates] overrides, and one whose second candidate has neither path
    segments nor a display name *)
Definition nullSpec : PackageFileSpec :=
  {| s_id := "noto-sans-jp";
     s_displayName := None;
     s_packageName := "@expo-google-fonts/noto-sans-jp";
     s_pathSegments := None;
     s_candidates := Some [None] |}.

Definition sparseSpec : PackageFileSpec :=
  {| s_id := "noto-sans-jp";
     s_displayName := Some "overridden";
     s_packageName := "@expo-google-fonts/noto-sans-jp";
     s_pathSegments := Some ["overridden.ttf"];
     s_candidates := Some [None; Some rootFont] |}.

Definition malformedSpec : PackageFileSpec :=
  {| s_id := "noto-sans-jp";
     s_displayName := None;
     s_packageName := "@expo-google-fonts/noto-sans-jp";
     s_pathSegments := None;
     s_candidates :=
       Some [Some rootFont; Some {| c_pathSegments := None; c_displayName := None |}] |}.

(** an algorithm whose [compress] throws at level 2 *)
Definition compressError : exn := Exn "RangeError" "level 2 is out of range".

Definition failsAtTwo : Algorithm :=
  {| alg_name := "fails";
     alg_levels := [1; 2; 3];
     alg_compress := fun buffer level =>
       if level =? 2 then Throw compressError else Normal buffer |}.

(** a sweep by two small algorithms, of a buffer of 10 bytes and of an
    empty buffer *)
Definition smallSweep : completion (list AlgorithmResult) * @World host :=
  sweep (H:=host) [stubAlgorithm; emptyOutput] (zeros 10) 10 (world (H:=host) ∅).

Definition emptySweep : completion (list AlgorithmResult) * @World host :=
  sweep (H:=host) [stubAlgorithm; emptyOutput] [] 0 (world (H:=host) ∅).

(** the processing of A alone *)
Definition fileRun : completion (list RunEntry) * @World host :=
  processFile (H:=host) fileA [] (world (H:=host) twoFs).

(** the run of A, the missing C and B, up to C *)
Definition missingStart : @World host :=
  snd (ensureChartsDir (H:=host) (world (H:=host) twoFs)).

Definition missingBefore : completion (list RunEntry) * @World host :=
  processFiles (H:=host) [fileA] missingStart.

End Stub.

(** * Verification *)

Section Loops.
Context `{H : Host}.

Lemma bind_normal {A B} (m : M A) (k : A -> M B) w a w' :
  m w = (Normal a, w') -> bind m k w = k a w'.
Proof. intros Hm. unfold bind. now rewrite Hm. Qed.

Lemma bind_throw {A B} (m : M A) (k : A -> M B) w e w' :
  m w = (Throw e, w') -> bind m k w = (Throw e, w').
Proof. intros Hm. unfold bind. now rewrite Hm. Qed.

(** A bind that completes normally went through both of its parts. *)
Lemma bind_inv_normal {A B} (m : M A) (k : A -> M B) w b w2 :
  bind m k w = (Normal b, w2) ->
  exists a w1, m w = (Normal a, w1) /\ k a w1 = (Normal b, w2).
Proof.
  unfold bind. destruct (m w) as [[a|e] w1]; intros Hk.
  - now exists a, w1.
  - discriminate.
Qed.

(** A run is the pair of its outcome and its final world. *)
Lemma run_eta {A} (run : completion A * World) (a : A) :
  fst run = Normal a -> run = (Normal a, snd run).
Proof. destruct run as [c w']. simpl. now intros ->. Qed.

Lemma run_normal {A} (run : completion A * World) (d : A) :
  isNormal (fst run) = true -> run = (Normal (normalOr d (fst run)), snd run).
Proof. destruct run as [[a|e] w']; simpl; [reflexivity|discriminate]. Qed.

Lemma for_of_cons {A S} (x : A) (xs : list A) (s : S) (body : A -> S -> M S) :
  for_of (x :: xs) s body = (s' <- body x s ;; for_of xs s' body).
Proof. reflexivity. Qed.

Lemma for_of_app {A S} (xs ys : list A) (s : S) (body : A -> S -> M S) w :
  for_of (xs ++ ys) s body w =
  (s' <- for_of xs s body ;; for_of ys s' body) w.
Proof.
  revert s w. induction xs as [|x xs IH]; intros s w; [reflexivity|].
  simpl. unfold bind in *.
  destruct (body x s w) as [[s1|e] w1]; [|reflexivity].
  apply IH.
Qed.

(** A loop whose body pushes one element per iteration, when it completes,
    has pushed one element per item, in the order of the items.  [R]
    relates an item to the element pushed for it. *)
Lemma for_of_push {A B} (R : A -> B -> Prop) (body : A -> list B -> M (list B)) :
  (forall x acc w out w',
      body x acc w = (Normal out, w') -> exists b, out = push acc b /\ R x b) ->
  forall (xs : list A) (acc : list B) w out w',
    for_of xs acc body w = (Normal out, w') ->
    exists new, out = acc ++ new /\ Forall2 R xs new.
Proof.
  intros Hbody. induction xs as [|x xs IH]; intros acc w out w' Hrun.
  - injection Hrun as <- _. exists []. split; [now rewrite app_nil_r | constructor].
  - rewrite for_of_cons in Hrun.
    apply bind_inv_normal in Hrun as (acc1 & w1 & Hx & Hrest).
    apply Hbody in Hx as (b & -> & Hb).
    apply IH in Hrest as (new & -> & Hnew).
    exists (b :: new). split.
    + unfold push. now rewrite <- app_assoc.
    + now constructor.
Qed.

(** A loop whose body completes normally on every item completes normally. *)
Lemma for_of_completes {A S} (P : A -> Prop) (body : A -> S -> M S) :
  (forall x s w, P x -> exists s' w', body x s w = (Normal s', w')) ->
  forall (xs : list A) (s : S) w,
    Forall P xs -> exists s' w', for_of xs s body w = (Normal s', w').
Proof.
  intros Hbody. induction xs as [|x xs IH]; intros s w HP.
  - now exists s, w.
  - inversion HP as [|? ? Hx Hxs]; subst.
    destruct (Hbody x s w Hx) as (s1 & w1 & H1).
    destruct (IH s1 w1 Hxs) as (s2 & w2 & H2).
    exists s2, w2. rewrite for_of_cons. now rewrite (bind_normal _ _ _ _ _ H1).
Qed.

End Loops.

(** ** Numbers: the quotient of two lengths *)

Section Numbers.

(** [digits2_pos p] is the number of binary digits of [p]. *)
Lemma digits2_pos_bounds (p : positive) :
  2 ^ (Zpos (digits2_pos p) - 1) <= Zpos p < 2 ^ Zpos (digits2_pos p).
Proof.
  induction p as [p IH|p IH|]; simpl digits2_pos.
  - rewrite Pos2Z.inj_succ. replace (Z.succ (Zpos (digits2_pos p)) - 1)
      with (Z.succ (Zpos (digits2_pos p) - 1)) by lia.
    rewrite !Z.pow_succ_r by lia. lia.
  - rewrite Pos2Z.inj_succ. replace (Z.succ (Zpos (digits2_pos p)) - 1)
      with (Z.succ (Zpos (digits2_pos p) - 1)) by lia.
    rewrite !Z.pow_succ_r by lia. lia.
  - simpl. lia.
Qed.

(** A positive number between [2^(d-1)] and [2^d] has [d] digits. *)
Lemma digits2_pos_unique (p : positive) (d : Z) :
  2 ^ (d - 1) <= Zpos p < 2 ^ d -> 0 < d -> Zpos (digits2_pos p) = d.
Proof.
  intros [Hlo Hhi] Hd. pose proof (digits2_pos_bounds p) as [Hlo' Hhi'].
  destruct (Z.lt_trichotomy (Zpos (digits2_pos p)) d) as [Hlt|[Heq|Hgt]]; [|exact Heq|].
  - assert (2 ^ Zpos (digits2_pos p) <= 2 ^ (d - 1)) by (apply Z.pow_le_mono_r; lia). lia.
  - assert (2 ^ d <= 2 ^ (Zpos (digits2_pos p) - 1)) by (apply Z.pow_le_mono_r; lia). lia.
Qed.

Lemma fexp_normal (e : Z) : -1021 <= e -> fexp prec emax e = e - 53.
Proof. unfold fexp, SpecFloat.emin, prec, emax. lia. Qed.


Lemma loc_of_shr_record_of_loc m l : loc_of_shr_record (shr_record_of_loc m l) = l.
Proof. now destruct l as [|[]]. Qed.

Lemma shr_m_record_of_loc m l : shr_m (shr_record_of_loc m l) = m.
Proof. now destruct l as [|[]]. Qed.

(** A mantissa of 53 digits is not shifted. *)
Lemma shr_fexp_53 m e l :
  2 ^ 52 <= m < 2 ^ 53 -> -1074 <= e ->
  shr_fexp prec emax m e l = (shr_record_of_loc m l, e).
Proof.
  intros Hm He. destruct m as [|p|p]; try lia.
  unfold shr_fexp. simpl Zdigits2.
  rewrite (digits2_pos_unique p 53) by (simpl; lia).
  rewrite fexp_normal by lia.
  replace (53 + e - 53 - e) with 0 by lia. reflexivity.
Qed.

(** A mantissa of 54 digits is shifted by one digit. *)
Lemma shr_fexp_54 m e l :
  2 ^ 53 <= m < 2 ^ 54 -> -1075 <= e ->
  exists mrs, shr_fexp prec emax m e l = (mrs, e + 1) /\ 2 ^ 52 <= shr_m mrs < 2 ^ 53.
Proof.
  intros Hm He. destruct m as [|p|p]; try lia.
  unfold shr_fexp. simpl Zdigits2.
  rewrite (digits2_pos_unique p 54) by (simpl; lia).
  rewrite fexp_normal by lia.
  replace (54 + e - 53 - e) with 1 by lia. simpl shr.
  eexists. split; [reflexivity|].
  destruct l as [|[]]; destruct p as [p|p|]; simpl; lia.
Qed.

Lemma round_nearest_even_range m l : m <= round_nearest_even m l <= m + 1.
Proof. destruct l as [|[]]; simpl; try destruct (Z.even m); lia. Qed.

(** Rounding a positive mantissa of 53 or 54 digits gives a positive
    number. *)
Lemma binary_round_aux_positive m e l :
  2 ^ 52 <= m < 2 ^ 54 -> -1074 <= e ->
  js_lt zero (binary_round_aux prec emax false m e l) = true.
Proof.
  intros Hm He.
  assert (forall m2 e2, 2 ^ 52 <= m2 <= 2 ^ 53 -> -1074 <= e2 ->
            js_lt zero
              (let '(mrs, e3) := shr_fexp prec emax m2 e2 loc_Exact in
               match shr_m mrs with
               | 0 => S754_zero false
               | Zpos m3 =>
                   if e3 <=? emax - prec then S754_finite false m3 e3
                   else S754_infinity false
               | Zneg _ => S754_nan
               end) = true) as Hsecond.
  { intros m2 e2 Hm2 He2. destruct (Z.eq_dec m2 (2 ^ 53)) as [->|Hne].
    - destruct (shr_fexp_54 (2 ^ 53) e2 loc_Exact) as (mrs & -> & Hmrs); [lia|lia|].
      destruct (shr_m mrs) as [|m3|m3]; try lia. now destruct (_ <=? _).
    - rewrite shr_fexp_53 by lia. simpl shr_m.
      destruct m2 as [|m3|m3]; try lia. now destruct (_ <=? _). }
  unfold binary_round_aux.
  destruct (Z_lt_le_dec m (2 ^ 53)) as [Hlt|Hge].
  - rewrite shr_fexp_53 by lia.
    rewrite loc_of_shr_record_of_loc, shr_m_record_of_loc.
    apply Hsecond; [|lia]. pose proof (round_nearest_even_range m l). lia.
  - destruct (shr_fexp_54 m e l) as (mrs & -> & Hmrs); [lia|lia|].
    apply Hsecond; [|lia].
    pose proof (round_nearest_even_range (shr_m mrs) (loc_of_shr_record mrs)). lia.
Qed.


(** A mantissa of 53 digits with nothing to round is kept as it is. *)
Lemma binary_round_aux_exact (m : positive) (e : Z) :
  2 ^ 52 <= Zpos m < 2 ^ 53 -> -1074 <= e <= 971 ->
  binary_round_aux prec emax false (Zpos m) e loc_Exact = S754_finite false m e.
Proof.
  intros Hm He. unfold binary_round_aux.
  rewrite shr_fexp_53 by lia. simpl shr_record_of_loc. simpl round_nearest_even.
  rewrite shr_fexp_53 by lia. simpl shr_m.
  unfold emax, prec. destruct (Z.leb_spec e (1024 - 53)); [reflexivity|lia].
Qed.

(** The number of a positive integer below [2^53] is a normal number: its
    mantissa has 53 digits. *)
Lemma number_of_Z_normal (z : Z) :
  0 < z <= kMaxLength ->
  exists m e, number_of_Z z = S754_finite false m e /\
              2 ^ 52 <= Zpos m < 2 ^ 53 /\ -52 <= e <= 0.
Proof.
  unfold kMaxLength. intros Hz. destruct z as [|p|p]; try lia.
  unfold number_of_Z, binary_normalize, binary_round.
  pose proof (digits2_pos_bounds p) as Hd.
  assert (Zpos (digits2_pos p) <= 53) as Hd53.
  { destruct (Z_le_gt_dec (Zpos (digits2_pos p)) 53) as [Hle|Hgt]; [exact Hle|].
    assert (2 ^ 53 <= 2 ^ (Zpos (digits2_pos p) - 1)) by (apply Z.pow_le_mono_r; lia).
    lia. }
  rewrite Z.add_0_r, fexp_normal by lia. unfold shl_align.
  rewrite Z.sub_0_r.
  destruct (Zpos (digits2_pos p) - 53) as [|k|k] eqn:Hk; try lia.
  - assert (Zpos (digits2_pos p) = 53) as Hd' by lia. rewrite Hd' in Hd.
    exists p, 0. rewrite binary_round_aux_exact by (simpl in *; lia).
    repeat split; simpl in *; lia.
  - pose proof (shift_pos_correct k p) as Hshift. unfold shift_pos in Hshift.
    change (Z.pow_pos 2 k) with (2 ^ Zpos k) in Hshift.
    assert (Zpos k = 53 - Zpos (digits2_pos p)) as Hk' by lia.
    assert (2 ^ Zpos k * 2 ^ (Zpos (digits2_pos p) - 1) = 2 ^ 52) as Hlo.
    { rewrite <- Z.pow_add_r by lia. f_equal. lia. }
    assert (2 ^ Zpos k * 2 ^ Zpos (digits2_pos p) = 2 ^ 53) as Hhi.
    { rewrite <- Z.pow_add_r by lia. f_equal. lia. }
    assert (0 < 2 ^ Zpos k) as Hpos by (apply Z.pow_pos_nonneg; lia).
    assert (2 ^ 52 <= Zpos (Pos.iter xO p k) < 2 ^ 53) as Hm.
    { rewrite Hshift, <- Hlo, <- Hhi. split.
      - apply Z.mul_le_mono_nonneg_l; lia.
      - apply Z.mul_lt_mono_pos_l; lia. }
    exists (Pos.iter xO p k), (Z.neg k).
    rewrite binary_round_aux_exact by lia.
    repeat split; lia.
Qed.

(** The quotient of two normal positive numbers is positive. *)
Lemma js_div_normal_positive (m1 m2 : positive) (e1 e2 : Z) :
  2 ^ 52 <= Zpos m1 < 2 ^ 53 -> -52 <= e1 <= 0 ->
  2 ^ 52 <= Zpos m2 < 2 ^ 53 -> -52 <= e2 <= 0 ->
  js_lt zero (js_div (S754_finite false m1 e1) (S754_finite false m2 e2)) = true.
Proof.
  intros Hm1 He1 Hm2 He2. unfold js_div, SFdiv, SFdiv_core_binary. simpl Zdigits2.
  rewrite (digits2_pos_unique m1 53), (digits2_pos_unique m2 53) by (simpl; lia).
  rewrite fexp_normal by lia.
  replace (Z.min (53 + e1 - (53 + e2) - 53) (e1 - e2)) with (e1 - e2 - 53) by lia.
  replace (e1 - e2 - (e1 - e2 - 53)) with 53 by lia.
  cbv zeta. rewrite Z.shiftl_mul_pow2 by lia.
  change (IntDef.Z.div_eucl (Zpos m1 * 2 ^ 53) (Zpos m2))
    with (Z.div_eucl (Zpos m1 * 2 ^ 53) (Zpos m2)).
  pose proof (Z_div_mod (Zpos m1 * 2 ^ 53) (Zpos m2) ltac:(lia)) as Hdiv.
  destruct (Z.div_eucl (Zpos m1 * 2 ^ 53) (Zpos m2)) as [q r].
  destruct Hdiv as [Hq Hr]. simpl xorb.
  apply binary_round_aux_positive; [|lia].
  assert (2 ^ 54 = 2 * 2 ^ 53) as H54 by reflexivity.
  assert (2 ^ 53 = 2 * 2 ^ 52) as H53 by reflexivity.
  split; nia.
Qed.

(** The ratio of two lengths of non-empty buffers is positive. *)
Lemma js_div_lengths_positive (size originalSize : Z) :
  0 < size <= kMaxLength -> 0 < originalSize <= kMaxLength ->
  js_lt zero (js_div (number_of_Z size) (number_of_Z originalSize)) = true.
Proof.
  intros Hs Ho.
  destruct (number_of_Z_normal size Hs) as (m1 & e1 & -> & Hm1 & He1).
  destruct (number_of_Z_normal originalSize Ho) as (m2 & e2 & -> & Hm2 & He2).
  now apply js_div_normal_positive.
Qed.

(** The ratio of the length of an empty buffer is zero. *)
Lemma js_div_zero_length (originalSize : Z) :
  0 < originalSize <= kMaxLength ->
  js_div (number_of_Z 0) (number_of_Z originalSize) = zero.
Proof.
  intros Ho. destruct (number_of_Z_normal originalSize Ho) as (m2 & e2 & -> & _).
  reflexivity.
Qed.

End Numbers.

(** ** The sweep *)

Section Sweep.
Context `{H : Host}.

(** [measure] takes two readings of the timer around one call of
    [compress]; a throw of [compress] comes after the first reading. *)
Lemma measure_eq algorithm buffer originalSize level w :
  measure algorithm buffer originalSize level w =
  match alg_compress algorithm buffer level with
  | Normal compressed =>
      (Normal {| m_level := level;
                 m_time := js_sub (performance_now (S (w_ticks w)))
                                  (performance_now (w_ticks w));
                 m_size := Buffer_length compressed;
                 m_ratio := js_div (number_of_Z (Buffer_length compressed))
                                   (number_of_Z originalSize) |},
       tick (tick w))
  | Throw e => (Throw e, tick w)
  end.
Proof.
  unfold measure, bind, performanceNow, call, ret. simpl.
  now destruct (alg_compress algorithm buffer level).
Qed.

Lemma measure_measured algorithm buffer originalSize level w m w' :
  measure algorithm buffer originalSize level w = (Normal m, w') ->
  measured algorithm buffer originalSize level m.
Proof.
  rewrite measure_eq.
  destruct (alg_compress algorithm buffer level) as [compressed|e] eqn:Hc; [|discriminate].
  intros [= <- _]. split; [reflexivity|]. now exists compressed.
Qed.

Lemma sweepLevels_measured algorithm buffer originalSize w ms w' :
  sweepLevels algorithm buffer originalSize w = (Normal ms, w') ->
  Forall2 (measured algorithm buffer originalSize) (alg_levels algorithm) ms.
Proof.
  intros Hrun.
  apply (for_of_push (measured algorithm buffer originalSize)) in Hrun
    as (new & -> & Hnew); [exact Hnew|].
  intros level acc w0 out w0' Hbody.
  apply bind_inv_normal in Hbody as (m & w1 & Hm & [= <- _]).
  exists m. split; [reflexivity|]. now apply measure_measured in Hm.
Qed.

Lemma sweepAlgorithm_sweptAs buffer originalSize algorithm acc w out w' :
  sweepAlgorithm buffer originalSize algorithm acc w = (Normal out, w') ->
  exists r, out = push acc r /\ sweptAs buffer originalSize algorithm r.
Proof.
  intros Hrun. unfold sweepAlgorithm in Hrun.
  apply bind_inv_normal in Hrun as (ms & w1 & Hms & Hrest).
  apply bind_inv_normal in Hrest as (u & w2 & _ & [= <- _]).
  eexists. split; [reflexivity|].
  split; [reflexivity|]. simpl. now apply sweepLevels_measured in Hms.
Qed.

(** A sweep that completes holds one result per algorithm of the registry,
    in the order of the registry. *)
Lemma sweep_sweptAs registry buffer originalSize w rs w' :
  sweep registry buffer originalSize w = (Normal rs, w') ->
  Forall2 (sweptAs buffer originalSize) registry rs.
Proof.
  intros Hrun.
  apply (for_of_push (sweptAs buffer originalSize)) in Hrun as (new & -> & Hnew);
    [exact Hnew|].
  intros algorithm acc w0 out w0'. apply sweepAlgorithm_sweptAs.
Qed.

Lemma measured_levels algorithm buffer originalSize levels ms :
  Forall2 (measured algorithm buffer originalSize) levels ms ->
  map m_level ms = levels.
Proof.
  induction 1 as [|level m levels ms [Hl _] _ IH]; [reflexivity|].
  simpl. now rewrite Hl, IH.
Qed.

(** The sweep completes when [compress] returns on every declared level. *)
Lemma sweep_completes registry buffer originalSize w :
  Forall (fun algorithm =>
            Forall (fun level => exists compressed,
                      alg_compress algorithm buffer level = Normal compressed)
                   (alg_levels algorithm)) registry ->
  exists rs w', sweep registry buffer originalSize w = (Normal rs, w').
Proof.
  intros Hok. unfold sweep.
  apply (for_of_completes _ _) with (2 := Hok).
  intros algorithm acc w0 Hlevels. unfold sweepAlgorithm.
  assert (exists ms w1, sweepLevels algorithm buffer originalSize w0 = (Normal ms, w1))
    as (ms & w1 & Hms).
  { unfold sweepLevels. apply (for_of_completes _ _) with (2 := Hlevels).
    intros level ms w1 (compressed & Hc).
    unfold bind. rewrite measure_eq, Hc. now eexists _, _. }
  rewrite (bind_normal _ _ _ _ _ Hms).
  unfold when, bind, console_log, ret. destruct verbose; now eexists _, _.
Qed.

End Sweep.

(** ** The registry and the levels of a sweep *)

Section Registry.
Context `{H : Host}.

Lemma seqZ_ascending m n : StronglySorted Z.lt (seqZ m n).
Proof.
  remember (Z.to_nat n) as k eqn:Hk. revert m n Hk.
  induction k as [|k IH]; intros m n Hk.
  - rewrite seqZ_nil by lia. constructor.
  - rewrite seqZ_cons by lia. constructor.
    + apply IH. lia.
    + apply Forall_seqZ. lia.
Qed.

Lemma range_ascending lo hi : StronglySorted Z.lt (range lo hi).
Proof. apply seqZ_ascending. Qed.

Lemma range_NoDup lo hi : NoDup (range lo hi).
Proof. apply NoDup_seqZ. Qed.

Lemma elem_of_range lo hi k : k ∈ range lo hi <-> lo <= k <= hi.
Proof. unfold range. rewrite elem_of_seqZ. lia. Qed.

(** C7: the registry has exactly three entries, gzip, brotli and zstd in
    this order, and their declared levels are the contiguous ranges 1..9,
    0..11 and 1..22. *)
Theorem registry_three_ranges :
  length algorithms = 3%nat /\
  map alg_name algorithms = ["gzip"; "brotli"; "zstd"] /\
  map alg_levels algorithms = [range 1 9; range 0 11; range 1 22].
Proof. repeat split. Qed.

Lemma registry_levels_ascending :
  Forall (fun algorithm =>
            StronglySorted Z.lt (alg_levels algorithm) /\ NoDup (alg_levels algorithm))
         algorithms.
Proof.
  unfold algorithms.
  constructor; [split; [exact (range_ascending 1 9) | exact (range_NoDup 1 9)]|].
  constructor; [split; [exact (range_ascending 0 11) | exact (range_NoDup 0 11)]|].
  constructor; [split; [exact (range_ascending 1 22) | exact (range_NoDup 1 22)]|].
  constructor.
Qed.

(** C1: for every buffer swept, the completed sweep holds for every
    algorithm of the registry, in registry order, exactly one measurement
    per declared level: the levels of the measurements are the declared
    levels in the declared order, so there are as many measurements as
    declared levels, no level occurs twice, and the levels are strictly
    ascending. *)
Theorem sweep_levels_as_declared buffer originalSize w rs w' :
  sweep algorithms buffer originalSize w = (Normal rs, w') ->
  Forall2 (fun algorithm r =>
             ar_name r = alg_name algorithm /\
             levelsOf r = alg_levels algorithm /\
             length (ar_measurements r) = length (alg_levels algorithm) /\
             NoDup (levelsOf r) /\
             StronglySorted Z.lt (levelsOf r))
          algorithms rs.
Proof.
  intros Hrun. apply sweep_sweptAs in Hrun.
  pose proof registry_levels_ascending as Hasc.
  induction Hrun as [|algorithm r registry rs [Hname Hms] _ IH]; [constructor|].
  inversion Hasc as [|? ? [Hsorted Hnodup] Hasc']; subst.
  constructor; [|exact (IH Hasc')].
  pose proof (measured_levels _ _ _ _ _ Hms) as Hlevels.
  unfold levelsOf. rewrite Hlevels.
  repeat split; try assumption.
  now rewrite <- Hlevels, length_map.
Qed.

End Registry.

Lemma sweep_levels_as_declared_witness :
  Stub.sweepRun = (Normal Stub.sweepResults, snd Stub.sweepRun) /\
  Forall2 (fun algorithm r =>
             ar_name r = alg_name algorithm /\
             levelsOf r = alg_levels algorithm /\
             length (ar_measurements r) = length (alg_levels algorithm) /\
             NoDup (levelsOf r) /\
             StronglySorted Z.lt (levelsOf r))
          (algorithms (H:=Stub.host)) Stub.sweepResults.
Proof.
  assert (Stub.sweepRun = (Normal Stub.sweepResults, snd Stub.sweepRun)) as Hrun
    by (apply (run_eta (H:=Stub.host)); reflexivity).
  split; [exact Hrun|].
  exact (sweep_levels_as_declared (H:=Stub.host) _ _ _ _ _ Hrun).
Defined.

(** ** The artifact resolver *)

Section Resolver.
Context `{H : Host}.

Lemma resolvePackageFile_eq packageName pathSegments w :
  resolvePackageFile packageName pathSegments w =
  match require_resolve (w_fs w) (path_join [packageName; "package.json"]) [repoRoot] with
  | Normal packageJsonPath =>
      (Normal (path_join (path_dirname packageJsonPath :: pathSegments)), w)
  | Throw e => (Throw e, w)
  end.
Proof.
  unfold resolvePackageFile, bind, requireResolve, ret.
  now destruct (require_resolve _ _ _).
Qed.

Lemma mapC_normal {A B} (f : A -> completion B) (g : A -> B) (l : list A) :
  Forall (fun x => f x = Normal (g x)) l -> mapC f l = Normal (map g l).
Proof.
  induction 1 as [|x l Hx _ IH]; [reflexivity|].
  simpl. now rewrite Hx, IH.
Qed.

Lemma listCandidate_hasSegments packageName candidate :
  hasSegments candidate ->
  listCandidate packageName candidate = Normal (toListed packageName candidate).
Proof.
  intros [segments Hs]. unfold listCandidate, toListed, displayNameOf, segmentsOf.
  rewrite Hs. now destruct (c_displayName candidate).
Qed.

Lemma candidateList_declared spec :
  Forall hasSegments (declaredCandidates spec) ->
  candidateList spec = Normal (map (toListed (s_packageName spec)) (declaredCandidates spec)).
Proof.
  intros Hwf. unfold candidateList. apply mapC_normal.
  eapply Forall_impl; [exact Hwf|].
  intros candidate. apply listCandidate_hasSegments.
Qed.

Lemma attempted_declared packageName candidates :
  Forall hasSegments candidates ->
  attempted packageName (map (toListed packageName) candidates)
  = Normal (map (listed packageName) candidates).
Proof.
  unfold attempted. induction 1 as [|candidate candidates [segments Hs] _ IH];
    [reflexivity|].
  simpl. rewrite IH, Hs. unfold listed, segmentsOf. now rewrite Hs.
Qed.

(** One iteration of the loop of lines 43-53 on a candidate whose path does
    not exist: the loop goes on with the next candidate. *)
Lemma firstExisting_miss id packageName packageJsonPath candidate rest w :
  require_resolve (w_fs w) (path_join [packageName; "package.json"]) [repoRoot]
    = Normal packageJsonPath ->
  hasSegments candidate ->
  fs_existsSync (w_fs w) (probed packageJsonPath candidate) = false ->
  firstExisting id packageName (toListed packageName candidate :: rest) w
  = firstExisting id packageName rest w.
Proof.
  intros Hroot [segments Hs] Hmiss. unfold probed, segmentsOf in Hmiss.
  rewrite Hs in Hmiss. simpl in Hmiss.
  simpl. unfold bind at 1. unfold call. rewrite Hs. simpl.
  unfold bind at 1. rewrite resolvePackageFile_eq, Hroot.
  unfold bind at 1. unfold existsSync. now rewrite Hmiss.
Qed.

(** One iteration on a candidate whose path exists: the function returns. *)
Lemma firstExisting_hit id packageName packageJsonPath candidate rest w :
  require_resolve (w_fs w) (path_join [packageName; "package.json"]) [repoRoot]
    = Normal packageJsonPath ->
  hasSegments candidate ->
  fs_existsSync (w_fs w) (probed packageJsonPath candidate) = true ->
  firstExisting id packageName (toListed packageName candidate :: rest) w
  = (Normal (Some {| pf_id := id;
                     pf_displayName := displayNameOf packageName candidate;
                     pf_absolutePath := probed packageJsonPath candidate;
                     pf_relativePath :=
                       path_relative repoRoot (probed packageJsonPath candidate) |}), w).
Proof.
  intros Hroot [segments Hs] Hhit. unfold probed, segmentsOf in *.
  rewrite Hs in *. simpl in Hhit.
  simpl. unfold bind at 1. unfold call. rewrite Hs. simpl.
  unfold bind at 1. rewrite resolvePackageFile_eq, Hroot.
  unfold bind at 1. unfold existsSync. now rewrite Hhit.
Qed.

Lemma firstExisting_skip id packageName packageJsonPath before rest w :
  require_resolve (w_fs w) (path_join [packageName; "package.json"]) [repoRoot]
    = Normal packageJsonPath ->
  Forall hasSegments before ->
  Forall (fun candidate =>
            fs_existsSync (w_fs w) (probed packageJsonPath candidate) = false) before ->
  firstExisting id packageName (map (toListed packageName) before ++ rest) w
  = firstExisting id packageName rest w.
Proof.
  intros Hroot Hwf Hmiss. induction before as [|candidate before IH]; [reflexivity|].
  inversion Hwf; inversion Hmiss; subst.
  change (map (toListed packageName) (candidate :: before) ++ rest)
    with (toListed packageName candidate :: (map (toListed packageName) before ++ rest)).
  rewrite (firstExisting_miss _ _ packageJsonPath) by assumption. now apply IH.
Qed.

(** Resolution only reads the world. *)
Lemma firstExisting_world id packageName candidates w :
  snd (firstExisting id packageName candidates w) = w.
Proof.
  induction candidates as [|candidate rest IH]; [reflexivity|].
  simpl. unfold bind, call.
  destruct (pathSegmentsOf (lc_pathSegments candidate)) as [segments|e]; [|reflexivity].
  rewrite resolvePackageFile_eq.
  destruct (require_resolve _ _ _) as [packageJsonPath|e]; [|reflexivity].
  unfold existsSync. destruct (fs_existsSync _ _); [reflexivity | exact IH].
Qed.

Lemma createPackageFile_world spec w : snd (createPackageFile spec w) = w.
Proof.
  unfold createPackageFile, bind, call.
  destruct (candidateList spec) as [candidates|e]; [|reflexivity].
  pose proof (firstExisting_world (s_id spec) (s_packageName spec) candidates w) as Hw.
  destruct (firstExisting _ _ _ w) as [[[file|]|e] w1]; simpl in Hw; subst w1;
    [reflexivity| |reflexivity].
  now destruct (attempted _ _).
Qed.

Lemma append_assoc (s1 s2 s3 : string) : (s1 +:+ s2) +:+ s3 = s1 +:+ s2 +:+ s3.
Proof.
  induction s1 as [|c s1 IH]; [reflexivity|].
  change (String c ((s1 +:+ s2) +:+ s3) = String c (s1 +:+ s2 +:+ s3)).
  now rewrite IH.
Qed.

Lemma append_nil_r (s : string) : s +:+ "" = s.
Proof.
  induction s as [|c s IH]; [reflexivity|].
  change (String c (s +:+ "") = String c s). now rewrite IH.
Qed.

Lemma occursIn_here (s after : string) : occursIn s (s +:+ after).
Proof. now exists "", after. Qed.

Lemma occursIn_append (p s t : string) : occursIn s t -> occursIn s (p +:+ t).
Proof.
  intros (before & after & ->). exists (p +:+ before), after.
  now rewrite append_assoc.
Qed.

(** Every element of an array occurs in its [join]. *)
Lemma occursIn_join (separator x : string) (l : list string) :
  x ∈ l -> occursIn x (join separator l).
Proof.
  unfold join. induction l as [|y l IH]; intros Hx; [now apply elem_of_nil in Hx|].
  apply elem_of_cons in Hx. destruct l as [|z l].
  - destruct Hx as [->|Hx]; [|now apply elem_of_nil in Hx].
    simpl. exists "", "". simpl. now rewrite append_nil_r.
  - change (String.concat separator (y :: z :: l))
      with (y +:+ separator +:+ String.concat separator (z :: l)).
    destruct Hx as [->|Hx]; [apply occursIn_here|].
    apply occursIn_append, occursIn_append, IH, Hx.
Qed.

Lemma resolveAll_world specs w : snd (resolveAll specs w) = w.
Proof.
  unfold resolveAll. generalize (@nil PackageFile) as acc. revert w.
  induction specs as [|spec specs IH]; intros w acc; [reflexivity|].
  rewrite for_of_cons. unfold bind at 1 2.
  pose proof (createPackageFile_world spec w) as Hw.
  destruct (createPackageFile spec w) as [[file|e] w1]; simpl in Hw; subst w1;
    [|reflexivity].
  apply IH.
Qed.

(** [createPackageFile] on a specification none of whose candidates
    exists. *)
Lemma createPackageFile_throws spec w packageJsonPath :
  require_resolve (w_fs w) (path_join [s_packageName spec; "package.json"]) [repoRoot]
    = Normal packageJsonPath ->
  Forall hasSegments (declaredCandidates spec) ->
  Forall (fun candidate =>
            fs_existsSync (w_fs w) (probed packageJsonPath candidate) = false)
         (declaredCandidates spec) ->
  createPackageFile spec w
  = (Throw (Error (notFoundMessage (s_packageName spec)
                     (map (listed (s_packageName spec)) (declaredCandidates spec)))), w).
Proof.
  intros Hroot Hwf Hmiss. unfold createPackageFile.
  unfold bind at 1. unfold call. rewrite (candidateList_declared _ Hwf).
  unfold bind at 1.
  rewrite <- (app_nil_r (map _ (declaredCandidates spec))).
  rewrite (firstExisting_skip _ _ packageJsonPath) by assumption. simpl.
  unfold bind, ret. rewrite app_nil_r, (attempted_declared _ _ Hwf). reflexivity.
Qed.

(** C3: for a specification whose candidates are well formed and whose
    package resolves, [createPackageFile] returns the first declared
    candidate whose path (the package root joined with the candidate's
    segments) exists, whatever follows it, with that candidate's display
    name, or the default derived from the package name and the segments
    when the candidate has none.  With two candidates of which only the
    second exists ([before] of length one), it returns the second. *)
Theorem createPackageFile_first_existing spec w packageJsonPath before candidate after :
  require_resolve (w_fs w) (path_join [s_packageName spec; "package.json"]) [repoRoot]
    = Normal packageJsonPath ->
  declaredCandidates spec = before ++ candidate :: after ->
  Forall hasSegments (declaredCandidates spec) ->
  Forall (fun earlier =>
            fs_existsSync (w_fs w) (probed packageJsonPath earlier) = false) before ->
  fs_existsSync (w_fs w) (probed packageJsonPath candidate) = true ->
  createPackageFile spec w
  = (Normal {| pf_id := s_id spec;
               pf_displayName := displayNameOf (s_packageName spec) candidate;
               pf_absolutePath := probed packageJsonPath candidate;
               pf_relativePath :=
                 path_relative repoRoot (probed packageJsonPath candidate) |}, w).
Proof.
  intros Hroot Hdecl Hwf Hmiss Hhit. unfold createPackageFile.
  unfold bind at 1. unfold call. rewrite (candidateList_declared _ Hwf).
  unfold bind at 1. rewrite Hdecl in *. rewrite map_app.
  apply Forall_app in Hwf as [Hwf1 Hwf2]. inversion Hwf2; subst.
  rewrite (firstExisting_skip _ _ packageJsonPath) by assumption.
  change (map (toListed (s_packageName spec)) (candidate :: after))
    with (toListed (s_packageName spec) candidate
            :: map (toListed (s_packageName spec)) after).
  rewrite (firstExisting_hit _ _ packageJsonPath) by assumption.
  reflexivity.
Qed.

Lemma occursInb_prefix (s after : string) : String.prefix s (s +:+ after) = true.
Proof.
  induction s as [|c s IH]; [now destruct after|].
  change (String.prefix (String c s) (String c (s +:+ after)) = true).
  cbn [String.prefix]. now destruct (ascii_dec c c).
Qed.

(** What occurs in a string is found by [occursInb]. *)
Lemma occursInb_complete (s t : string) : occursIn s t -> occursInb s t = true.
Proof.
  intros (before & after & ->). induction before as [|c before IH].
  - change ("" +:+ s +:+ after) with (s +:+ after).
    destruct (s +:+ after) eqn:Heq; cbn [occursInb]; rewrite <- Heq;
      now rewrite occursInb_prefix.
  - change (String c before +:+ s +:+ after) with (String c (before +:+ s +:+ after)).
    cbn [occursInb]. rewrite IH. apply orb_true_r.
Qed.

(** C4, corrected: when no candidate of a specification exists,
    [createPackageFile] throws, and what it throws depends on the package.
    When the package resolves (or no candidate is declared), it is the
    "Required file not found" error whose message lists, for every declared
    candidate, the package name joined with the candidate's segments.  When
    the package does not resolve, no candidate exists under any root, and
    it is the error of [require.resolve] itself, which the script
    neither catches nor completes with the attempted paths.  In both cases
    the script never reaches [main]: the process ends with the error on
    stderr and exit status 1, and the file system is left as it was, so no
    chart and no report is written. *)
Theorem createPackageFile_not_found_aborts spec w :
  let packageName := s_packageName spec in
  let message :=
    notFoundMessage packageName (map (listed packageName) (declaredCandidates spec)) in
  let resolved :=
    require_resolve (w_fs w) (path_join [packageName; "package.json"]) [repoRoot] in
  Forall hasSegments (declaredCandidates spec) ->
  (forall packageJsonPath,
      resolved = Normal packageJsonPath ->
      Forall (fun candidate =>
                fs_existsSync (w_fs w) (probed packageJsonPath candidate) = false)
             (declaredCandidates spec)) ->
  exists error,
    createPackageFile spec w = (Throw error, w) /\
    match declaredCandidates spec, resolved with
    | _ :: _, Throw e => error = e
    | _, _ =>
        error = Error message /\
        forall candidate, candidate ∈ declaredCandidates spec ->
                          occursIn (listed packageName candidate) message
    end /\
    (forall before after files,
        is_Some zlib_zstdCompressSync ->
        resolveAll before w = (Normal files, w) ->
        let w' := node (script (before ++ spec :: after)) w in
        w' = setExitCode 1 (print (StderrError error) w) /\
        w_fs w' = w_fs w /\ exitStatus w' = 1).
Proof.
  intros packageName message resolved Hwf Hmiss.
  assert (forall candidate, candidate ∈ declaredCandidates spec ->
                            occursIn (listed packageName candidate) message) as Hlisted.
  { intros candidate Hin. unfold message, notFoundMessage.
    do 3 apply occursIn_append. apply occursIn_join.
    apply list_elem_of_fmap. now exists candidate. }
  assert (exists error,
            createPackageFile spec w = (Throw error, w) /\
            match declaredCandidates spec, resolved with
            | _ :: _, Throw e => error = e
            | _, _ =>
                error = Error message /\
                forall candidate, candidate ∈ declaredCandidates spec ->
                                  occursIn (listed packageName candidate) message
            end) as (error & Hthrow & Hshape).
  { destruct resolved as [packageJsonPath|e] eqn:Hroot; subst resolved.
    - exists (Error message). split.
      + apply (createPackageFile_throws spec w packageJsonPath Hroot Hwf).
        now apply Hmiss.
      + now destruct (declaredCandidates spec).
    - pose proof (candidateList_declared _ Hwf) as Hlist.
      destruct (declaredCandidates spec) as [|first rest].
      + exists (Error message). split; [|now split].
        unfold createPackageFile. unfold bind at 1. unfold call.
        now rewrite Hlist.
      + exists e. split; [|reflexivity].
        unfold createPackageFile. unfold bind at 1. unfold call. rewrite Hlist.
        inversion Hwf as [|? ? [segments Hs] _]; subst.
        simpl. unfold bind at 1 2. unfold call. rewrite Hs. simpl.
        unfold bind at 1. rewrite resolvePackageFile_eq.
        unfold packageName in Hroot. now rewrite Hroot. }
  exists error. split; [exact Hthrow|]. split; [exact Hshape|].
  intros before after files [zstd Hzstd] Hbefore.
  assert (node (script (before ++ spec :: after)) w
          = setExitCode 1 (print (StderrError error) w)) as Hnode.
  { unfold node, script. rewrite Hzstd. unfold bind at 1. unfold ret at 1.
    unfold bind at 1. unfold resolveAll in *. rewrite for_of_app.
    rewrite (bind_normal _ _ _ _ _ Hbefore). rewrite for_of_cons.
    unfold bind at 1 2. now rewrite Hthrow. }
  cbv zeta. rewrite Hnode. repeat split.
Qed.

End Resolver.

Lemma createPackageFile_first_existing_witness :
  createPackageFile (H:=Stub.host) Stub.fontSpec (Stub.world (H:=Stub.host) Stub.fontFs)
  = (Normal {| pf_id := "noto-sans-jp";
               pf_displayName := "@expo-google-fonts/noto-sans-jp/NotoSansJP_400Regular.ttf";
               pf_absolutePath :=
                 "/repo/node_modules/@expo-google-fonts/noto-sans-jp/NotoSansJP_400Regular.ttf";
               pf_relativePath :=
                 "node_modules/@expo-google-fonts/noto-sans-jp/NotoSansJP_400Regular.ttf" |},
     Stub.world (H:=Stub.host) Stub.fontFs).
Proof.
  apply (createPackageFile_first_existing (H:=Stub.host) Stub.fontSpec
           (Stub.world (H:=Stub.host) Stub.fontFs)
           "/repo/node_modules/@expo-google-fonts/noto-sans-jp/package.json"
           [{| c_pathSegments := Some ["400Regular"; "NotoSansJP_400Regular.ttf"];
               c_displayName := None |}]
           {| c_pathSegments := Some ["NotoSansJP_400Regular.ttf"];
              c_displayName := None |}
           []).
  - reflexivity.
  - reflexivity.
  - repeat constructor; eexists; reflexivity.
  - repeat constructor.
  - reflexivity.
Defined.

Lemma createPackageFile_not_found_aborts_witness :
  let w := Stub.world (H:=Stub.host) Stub.emptyFontFs in
  let message :=
    "Required file not found for @expo-google-fonts/noto-sans-jp. Tried: @expo-google-fonts/noto-sans-jp/400Regular/NotoSansJP_400Regular.ttf, @expo-google-fonts/noto-sans-jp/NotoSansJP_400Regular.ttf" in
  let bare := Stub.world (H:=Stub.host) ∅ in
  let unresolved :=
    Exn "Error" "Cannot find module @expo-google-fonts/noto-sans-jp/package.json" in
  createPackageFile (H:=Stub.host) Stub.fontSpec w = (Throw (Error message), w) /\
  node (H:=Stub.host) (script (H:=Stub.host) [Stub.fontSpec]) w
  = setExitCode (H:=Stub.host) 1 (print (H:=Stub.host) (StderrError (Error message)) w) /\
  node (H:=Stub.host) (script (H:=Stub.host) [Stub.fontSpec]) bare
  = setExitCode (H:=Stub.host) 1 (print (H:=Stub.host) (StderrError unresolved) bare).
Proof.
  cbv zeta. split; [|split].
  - destruct (createPackageFile_not_found_aborts (H:=Stub.host) Stub.fontSpec
                (Stub.world (H:=Stub.host) Stub.emptyFontFs))
      as (error & Hthrow & Hshape & _).
    + repeat constructor; eexists; reflexivity.
    + intros packageJsonPath Hroot.
      change (Normal "/repo/node_modules/@expo-google-fonts/noto-sans-jp/package.json"
              = Normal packageJsonPath) in Hroot.
      injection Hroot as <-. repeat constructor.
    + destruct Hshape as [-> _]. exact Hthrow.
  - destruct (createPackageFile_not_found_aborts (H:=Stub.host) Stub.fontSpec
                (Stub.world (H:=Stub.host) Stub.emptyFontFs))
      as (error & _ & Hshape & Hrun).
    + repeat constructor; eexists; reflexivity.
    + intros packageJsonPath Hroot.
      change (Normal "/repo/node_modules/@expo-google-fonts/noto-sans-jp/package.json"
              = Normal packageJsonPath) in Hroot.
      injection Hroot as <-. repeat constructor.
    + destruct Hshape as [-> _].
      exact (proj1 (Hrun [] [] [] (ex_intro _ _ eq_refl) eq_refl)).
  - destruct (createPackageFile_not_found_aborts (H:=Stub.host) Stub.fontSpec
                (Stub.world (H:=Stub.host) ∅))
      as (error & _ & Hshape & Hrun).
    + repeat constructor; eexists; reflexivity.
    + intros packageJsonPath Hroot.
      change (Throw (Exn "Error"
                       "Cannot find module @expo-google-fonts/noto-sans-jp/package.json")
              = Normal packageJsonPath) in Hroot.
      discriminate Hroot.
    + change (error = Exn "Error"
                        "Cannot find module @expo-google-fonts/noto-sans-jp/package.json")
        in Hshape.
      subst error. exact (proj1 (Hrun [] [] [] (ex_intro _ _ eq_refl) eq_refl)).
Defined.

(** C4, as stated, fails: in a file system that holds no file at all, no
    candidate path of the font package exists, yet the error that ends
    the resolution is the one of [require.resolve]; its message names
    neither of the two attempted paths and is not the "Required file not
    found" message. *)
Lemma unresolved_package_lists_no_attempted_path :
  let w := Stub.world (H:=Stub.host) ∅ in
  let packageName := s_packageName Stub.fontSpec in
  let error :=
    Exn "Error" "Cannot find module @expo-google-fonts/noto-sans-jp/package.json" in
  (forall p, fs_existsSync (Host:=Stub.host) (w_fs w) p = false) /\
  createPackageFile (H:=Stub.host) Stub.fontSpec w = (Throw error, w) /\
  declaredCandidates Stub.fontSpec = [Stub.nestedFont; Stub.rootFont] /\
  ~ occursIn (listed (H:=Stub.host) packageName Stub.nestedFont) (exn_message error) /\
  ~ occursIn (listed (H:=Stub.host) packageName Stub.rootFont) (exn_message error) /\
  ~ occursIn "Required file not found" (exn_message error).
Proof.
  cbv zeta. split.
  { intros p. apply bool_decide_eq_false_2. cbn. rewrite lookup_empty. apply is_Some_None. }
  split; [reflexivity|]. split; [reflexivity|].
  repeat split; intros Hocc%occursInb_complete; lazy in Hocc; discriminate.
Qed.

(** ** The driver *)

Section Driver.
Context `{H : Host}.

Lemma when_verbose line w : when verbose (console_log line) w = (Normal tt, logVerbose line w).
Proof. unfold when, logVerbose, console_log, ret. now destruct verbose. Qed.

Lemma logVerbose_fs line w : w_fs (logVerbose line w) = w_fs w.
Proof. unfold logVerbose. now destruct verbose. Qed.

(** A loop whose body leaves the file system as it is leaves it as it is. *)
Lemma for_of_fs {A S} (body : A -> S -> M S) :
  (forall x s w, w_fs (snd (body x s w)) = w_fs w) ->
  forall xs s w, w_fs (snd (for_of xs s body w)) = w_fs w.
Proof.
  intros Hbody. induction xs as [|x xs IH]; intros s w; [reflexivity|].
  rewrite for_of_cons. unfold bind. specialize (Hbody x s w).
  destruct (body x s w) as [[s1|e] w1]; simpl in Hbody; [|exact Hbody].
  now rewrite IH.
Qed.

Lemma sweepLevels_fs algorithm buffer originalSize w :
  w_fs (snd (sweepLevels algorithm buffer originalSize w)) = w_fs w.
Proof.
  apply for_of_fs. intros level ms w0. unfold bind. rewrite measure_eq.
  now destruct (alg_compress algorithm buffer level).
Qed.

(** The sweep only reads the timer and writes to the console. *)
Lemma sweep_fs registry buffer originalSize w :
  w_fs (snd (sweep registry buffer originalSize w)) = w_fs w.
Proof.
  apply for_of_fs. intros algorithm acc w0. unfold sweepAlgorithm, bind.
  pose proof (sweepLevels_fs algorithm buffer originalSize w0) as Hfs.
  destruct (sweepLevels algorithm buffer originalSize w0) as [[ms|e] w1]; simpl in Hfs;
    [|exact Hfs].
  rewrite when_verbose. simpl. now rewrite logVerbose_fs.
Qed.

(** [processFile], step by step. *)
Lemma processFile_eq file results w :
  processFile file results w =
  if fs_existsSync (w_fs w) (pf_absolutePath file) then
    match fs_readFileSync (w_fs w) (pf_absolutePath file) with
    | Throw e => (Throw e, w)
    | Normal buffer =>
        match sweep algorithms buffer (Buffer_length buffer) (sweepStart file buffer w) with
        | (Throw e, w2) => (Throw e, w2)
        | (Normal algorithmResults, w2) =>
            let fileResult := fileResultOf file buffer algorithmResults in
            let w3 := logVerbose "  Generating chart" w2 in
            match renderToBufferSync (chartConfiguration fileResult) "image/svg+xml" with
            | Throw error => (Throw error, renderFailed file w2)
            | Normal chartSvg =>
                match fs_writeFileSync (w_fs w3) (chartPathOf file) chartSvg with
                | Throw e => (Throw e, w3)
                | Normal fs' =>
                    (Normal (push results
                               {| re_file := fileResult;
                                  re_chartPath := path_relative repoRoot (chartPathOf file) |}),
                     logVerbose ("  Saved chart to " +:+ chartPathOf file) (setFs fs' w3))
                end
            end
        end
    end
  else (Throw (Error ("Required file not found: " +:+ pf_absolutePath file)), w).
Proof.
  unfold processFile, ensureFile. cbv zeta.
  unfold bind at 1 2. unfold existsSync.
  destruct (fs_existsSync (w_fs w) (pf_absolutePath file)); [|reflexivity].
  simpl. unfold ret at 1. unfold bind at 1. unfold readFileSync.
  destruct (fs_readFileSync (w_fs w) (pf_absolutePath file)) as [buffer|e]; [|reflexivity].
  unfold bind at 1. rewrite when_verbose.
  unfold bind at 1.
  destruct (sweep algorithms buffer (Buffer_length buffer) _) as [[algorithmResults|e] w2];
    [|reflexivity].
  unfold bind at 1. rewrite when_verbose.
  unfold bind at 1. unfold try_catch, generateChart, call. cbv zeta.
  fold (fileResultOf file buffer algorithmResults).
  destruct (renderToBufferSync _ _) as [chartSvg|error].
  - unfold bind at 1. unfold writeFileSync. fold (chartPathOf file).
    destruct (fs_writeFileSync _ _ _) as [fs'|e]; [|reflexivity].
    unfold bind at 1. rewrite when_verbose. reflexivity.
  - reflexivity.
Qed.

(** A file processed to its end adds one entry, which carries the
    identity and the display name of the file. *)
Lemma processFile_entry file results w out w' :
  processFile file results w = (Normal out, w') ->
  exists entry,
    out = push results entry /\
    fr_id (re_file entry) = pf_id file /\
    fr_displayName (re_file entry) = pf_displayName file.
Proof.
  rewrite processFile_eq.
  destruct (fs_existsSync _ _); [|discriminate].
  destruct (fs_readFileSync _ _) as [buffer|e]; [|discriminate].
  cbv zeta. destruct (sweep _ _ _ _) as [[algorithmResults|e] w2]; [|discriminate].
  destruct (renderToBufferSync _ _) as [chartSvg|error]; [|discriminate].
  destruct (fs_writeFileSync _ _ _) as [fs'|e]; [|discriminate].
  intros [= <- _]. eexists. repeat split.
Qed.

Lemma renderFailed_fs file w : w_fs (renderFailed file w) = w_fs w.
Proof. unfold renderFailed. simpl. apply logVerbose_fs. Qed.

(** [processFile] on a file whose chart the renderer refuses. *)
Lemma processFile_render_fails file results w buffer algorithmResults w2 error :
  fs_existsSync (w_fs w) (pf_absolutePath file) = true ->
  fs_readFileSync (w_fs w) (pf_absolutePath file) = Normal buffer ->
  sweep algorithms buffer (Buffer_length buffer) (sweepStart file buffer w)
    = (Normal algorithmResults, w2) ->
  renderToBufferSync (chartConfiguration (fileResultOf file buffer algorithmResults))
                     "image/svg+xml" = Throw error ->
  processFile file results w = (Throw error, renderFailed file w2).
Proof.
  intros Hexists Hread Hsweep Hrender.
  rewrite processFile_eq, Hexists, Hread, Hsweep. cbv zeta. now rewrite Hrender.
Qed.

(** C5: when the renderer fails for a file, the error leaves the loop over
    the files and [main]: whatever files follow, none of them is processed
    (the run is the same for every list of following files), the handler of
    [main().catch] prints the error and sets the exit code, so that the
    process ends with status 1, and the file system stays as the files
    before the failing one left it: neither a chart for the failing file
    nor the report is written. *)
Theorem render_failure_aborts_run before file after w w0 results w1 buffer
    algorithmResults w2 error :
  ensureChartsDir w = (Normal tt, w0) ->
  processFiles before w0 = (Normal results, w1) ->
  fs_existsSync (w_fs w1) (pf_absolutePath file) = true ->
  fs_readFileSync (w_fs w1) (pf_absolutePath file) = Normal buffer ->
  sweep algorithms buffer (Buffer_length buffer) (sweepStart file buffer w1)
    = (Normal algorithmResults, w2) ->
  renderToBufferSync (chartConfiguration (fileResultOf file buffer algorithmResults))
                     "image/svg+xml" = Throw error ->
  let final := setExitCode 1 (print (StderrError error) (renderFailed file w2)) in
  main (before ++ file :: after) w = (Throw error, renderFailed file w2) /\
  node (mainCatch (before ++ file :: after)) w = final /\
  (forall after', node (mainCatch (before ++ file :: after')) w = final) /\
  w_fs final = w_fs w1 /\
  exitStatus final = 1.
Proof.
  intros Hdir Hbefore Hexists Hread Hsweep Hrender final.
  assert (forall after', main (before ++ file :: after') w
                         = (Throw error, renderFailed file w2)) as Hmain.
  { intros after'. unfold main.
    rewrite (bind_normal _ _ _ _ _ Hdir).
    apply bind_throw. unfold processFiles in *. rewrite for_of_app.
    rewrite (bind_normal _ _ _ _ _ Hbefore). rewrite for_of_cons.
    apply bind_throw.
    now apply (processFile_render_fails _ _ _ buffer algorithmResults). }
  assert (forall after', node (mainCatch (before ++ file :: after')) w = final) as Hnode.
  { intros after'. unfold node, mainCatch, try_catch. now rewrite Hmain. }
  repeat split.
  - apply Hmain.
  - apply Hnode.
  - exact Hnode.
  - change (w_fs (renderFailed file w2) = w_fs w1). rewrite renderFailed_fs.
    pose proof (sweep_fs algorithms buffer (Buffer_length buffer) (sweepStart file buffer w1))
      as Hfs.
    rewrite Hsweep in Hfs. simpl in Hfs. rewrite Hfs. apply logVerbose_fs.
Qed.

(** C6: a run of [main] that completes has processed every configured file:
    [results] holds exactly one entry per file, in the order of the files,
    each with the identity and the display name of its file, and the report
    written to README.md is the header followed by the section of each
    entry, in that order, each section starting with the heading of its
    file.  For two files A and B, the section of A comes before the section
    of B. *)
Theorem main_report_in_declaration_order files w w' :
  main files w = (Normal tt, w') ->
  exists w0 results w1,
    ensureChartsDir w = (Normal tt, w0) /\
    processFiles files w0 = (Normal results, w1) /\
    length results = length files /\
    Forall2 (fun file entry =>
               fr_id (re_file entry) = pf_id file /\
               fr_displayName (re_file entry) = pf_displayName file /\
               head (sectionLines entry) = Some ("## " +:+ pf_displayName file))
            files results /\
    fs_writeFileSync (w_fs w1) (path_join [repoRoot; "README.md"])
      (join LF (headerLines (Date_toISOString (w_ticks w1))
                ++ concat (map sectionLines results)))
    = Normal (w_fs w').
Proof.
  intros Hmain. unfold main in Hmain.
  apply bind_inv_normal in Hmain as ([] & w0 & Hdir & Hmain).
  apply bind_inv_normal in Hmain as (results & w1 & Hfiles & Hmain).
  exists w0, results, w1.
  assert (Forall2 (fun file entry =>
                     fr_id (re_file entry) = pf_id file /\
                     fr_displayName (re_file entry) = pf_displayName file /\
                     head (sectionLines entry) = Some ("## " +:+ pf_displayName file))
                  files results) as Hentries.
  { unfold processFiles in Hfiles.
    eapply for_of_push in Hfiles as (new & -> & Hnew); [exact Hnew|].
    intros file acc wa out wb Hrun.
    apply processFile_entry in Hrun as (entry & -> & Hid & Hname).
    exists entry. repeat split; try assumption.
    simpl. now rewrite Hname. }
  repeat split; try assumption.
  - symmetry. eapply Forall2_length, Hentries.
  - unfold bind, newDateToISOString, writeFileSync in Hmain. simpl in Hmain.
    unfold readmeLines in Hmain.
    destruct (fs_writeFileSync _ _ _) as [fs'|e]; [|discriminate].
    now injection Hmain as <-.
Qed.

End Driver.

Lemma render_failure_aborts_run_witness :
  let w := Stub.world (H:=Stub.failingRenderer) Stub.twoFs in
  let final :=
    node (H:=Stub.failingRenderer)
         (mainCatch (H:=Stub.failingRenderer) [Stub.fileA; Stub.fileB; Stub.fileC]) w in
  w_exitCode final = Some 1 /\
  last (w_console final) = Some (StderrError Stub.renderError) /\
  w_fs final
  = <["/repo/charts/pkg-a-a-js.svg" := Stub.File (list_byte_of_string "<svg/>")]>
      (<["/repo/charts" := Stub.Dir]> Stub.twoFs) /\
  w_fs final !! "/repo/README.md" = None.
Proof.
  destruct (render_failure_aborts_run (H:=Stub.failingRenderer)
              [Stub.fileA] Stub.fileB [Stub.fileC]
              (Stub.world (H:=Stub.failingRenderer) Stub.twoFs)
              Stub.failStart (normalOr [] (fst Stub.failBefore)) (snd Stub.failBefore)
              (Stub.zeros 5)
              (normalOr [] (fst Stub.failSweep)) (snd Stub.failSweep) Stub.renderError)
    as (_ & Hnode & _ & Hfs & _).
  - reflexivity.
  - apply (run_normal (H:=Stub.failingRenderer)). reflexivity.
  - reflexivity.
  - reflexivity.
  - apply (run_normal (H:=Stub.failingRenderer)). reflexivity.
  - reflexivity.
  - change ([Stub.fileA] ++ Stub.fileB :: [Stub.fileC])
      with [Stub.fileA; Stub.fileB; Stub.fileC] in Hnode.
    cbv zeta. rewrite Hnode. repeat split.
Defined.

Lemma main_report_in_declaration_order_witness :
  fst Stub.reportRun = Normal tt /\
  exists entryA entryB w1,
    fr_id (re_file entryA) = "a" /\
    fr_id (re_file entryB) = "b" /\
    fs_writeFileSync (Host:=Stub.host) (w_fs w1) "/repo/README.md"
      (join LF (headerLines "2025-01-01T00:00:00.000Z"
                ++ sectionLines (H:=Stub.host) entryA
                ++ sectionLines (H:=Stub.host) entryB))
    = Normal (w_fs (snd Stub.reportRun)).
Proof.
  assert (Stub.reportRun = (Normal tt, snd Stub.reportRun)) as Hrun
    by (apply (run_eta (H:=Stub.host)); reflexivity).
  split; [now rewrite Hrun|].
  destruct (main_report_in_declaration_order (H:=Stub.host) _ _ _ Hrun)
    as (w0 & results & w1 & _ & _ & _ & Hentries & Hwrite).
  inversion Hentries as [|fa entryA fs1 rs1 (HidA & _) Hrest]; subst.
  inversion Hrest as [|fb entryB fs2 rs2 (HidB & _) Hnil]; subst.
  inversion Hnil; subst.
  exists entryA, entryB, w1. repeat split; try assumption.
  simpl in Hwrite. rewrite app_nil_r in Hwrite. exact Hwrite.
Defined.

(** ** The scenario of the stub algorithm *)

Section Scenario.
Context `{H : Host}.

Lemma Buffer_length_eq (b : Buffer) (n : nat) : length b = n -> Buffer_length b = Z.of_nat n.
Proof. unfold Buffer_length. now intros ->. Qed.

(** C8: for a buffer of 1000 bytes and an algorithm with levels 1, 2, 3
    whose [compress] returns buffers of 500, 400 and 300 bytes, the sweep
    completes with one result holding exactly three measurements, of
    levels 1, 2, 3, sizes 500, 400, 300 and ratios 0.5, 0.4, 0.3, in this
    order. *)
Theorem sweep_stub_scenario (algorithm : Algorithm) (buffer c1 c2 c3 : Buffer) w :
  length buffer = 1000%nat ->
  alg_levels algorithm = [1; 2; 3] ->
  alg_compress algorithm buffer 1 = Normal c1 -> length c1 = 500%nat ->
  alg_compress algorithm buffer 2 = Normal c2 -> length c2 = 400%nat ->
  alg_compress algorithm buffer 3 = Normal c3 -> length c3 = 300%nat ->
  exists m1 m2 m3 w',
    sweep [algorithm] buffer (Buffer_length buffer) w
    = (Normal [{| ar_name := alg_name algorithm; ar_measurements := [m1; m2; m3] |}], w') /\
    map m_level [m1; m2; m3] = [1; 2; 3] /\
    map m_size [m1; m2; m3] = [500; 400; 300] /\
    map m_ratio [m1; m2; m3] = decimals_05_04_03.
Proof.
  intros Hb Hlevels H1 Hc1 H2 Hc2 H3 Hc3.
  apply Buffer_length_eq in Hb, Hc1, Hc2, Hc3.
  assert (exists m1 m2 m3 w1,
            sweepLevels algorithm buffer (Buffer_length buffer) w
            = (Normal [m1; m2; m3], w1) /\
            map m_level [m1; m2; m3] = [1; 2; 3] /\
            map m_size [m1; m2; m3] = [500; 400; 300] /\
            map m_ratio [m1; m2; m3] = decimals_05_04_03)
    as (m1 & m2 & m3 & w1 & Hrun & Hfacts).
  { unfold sweepLevels. rewrite Hlevels.
    rewrite for_of_cons. unfold bind at 1 2. rewrite measure_eq, H1. unfold ret at 1.
    rewrite for_of_cons. unfold bind at 1 2. rewrite measure_eq, H2. unfold ret at 1.
    rewrite for_of_cons. unfold bind at 1 2. rewrite measure_eq, H3. unfold ret at 1.
    unfold for_of, ret. eexists _, _, _, _. split; [reflexivity|].
    simpl. rewrite Hb, Hc1, Hc2, Hc3. repeat split. }
  exists m1, m2, m3. eexists. split; [|exact Hfacts].
  unfold sweep. rewrite for_of_cons. unfold sweepAlgorithm at 1.
  unfold bind at 1 2. rewrite Hrun. unfold bind at 1. rewrite when_verbose.
  reflexivity.
Qed.

End Scenario.

Lemma sweep_stub_scenario_witness :
  exists m1 m2 m3 w',
    sweep (H:=Stub.host) [Stub.stubAlgorithm] (Stub.zeros 1000) 1000
          (Stub.world (H:=Stub.host) ∅)
    = (Normal [{| ar_name := "stub"; ar_measurements := [m1; m2; m3] |}], w') /\
    map m_level [m1; m2; m3] = [1; 2; 3] /\
    map m_size [m1; m2; m3] = [500; 400; 300] /\
    map m_ratio [m1; m2; m3] = decimals_05_04_03.
Proof.
  apply (sweep_stub_scenario (H:=Stub.host) Stub.stubAlgorithm (Stub.zeros 1000)
           (Stub.zeros 500) (Stub.zeros 400) (Stub.zeros 300)
           (Stub.world (H:=Stub.host) ∅));
    reflexivity.
Defined.

(** ** Determinism, and the two variants *)

Section Determinism.
Context `{H : Host}.

(** Two runs of a loop from related worlds and related variables agree,
    when each iteration keeps the variables and the worlds related. *)
Lemma for_of_sameOutcome {A S T} (erase : S -> T) (related : World -> World -> Prop)
    (body1 body2 : A -> S -> M S) :
  (forall x s1 s2 w1 w2,
      erase s1 = erase s2 -> related w1 w2 ->
      sameOutcome erase (fst (body1 x s1 w1)) (fst (body2 x s2 w2)) /\
      related (snd (body1 x s1 w1)) (snd (body2 x s2 w2))) ->
  forall xs s1 s2 w1 w2,
    erase s1 = erase s2 -> related w1 w2 ->
    sameOutcome erase (fst (for_of xs s1 body1 w1)) (fst (for_of xs s2 body2 w2)) /\
    related (snd (for_of xs s1 body1 w1)) (snd (for_of xs s2 body2 w2)).
Proof.
  intros Hbody. induction xs as [|x xs IH]; intros s1 s2 w1 w2 Hs Hw.
  - now split.
  - rewrite !for_of_cons. unfold bind.
    destruct (Hbody x s1 s2 w1 w2 Hs Hw) as [Hout Hw'].
    destruct (body1 x s1 w1) as [[s1'|e1] w1'], (body2 x s2 w2) as [[s2'|e2] w2'];
      simpl in Hout, Hw'; try contradiction.
    + now apply IH.
    + now split.
Qed.

Lemma push_erased {A B} (erase : A -> B) (l1 l2 : list A) (x1 x2 : A) :
  map erase l1 = map erase l2 -> erase x1 = erase x2 ->
  map erase (push l1 x1) = map erase (push l2 x2).
Proof. intros Hl Hx. unfold push. rewrite !map_app. simpl. now rewrite Hl, Hx. Qed.

Lemma sweepLevels_timeless algorithm buffer originalSize w1 w2 :
  sameOutcome (map timeless)
    (fst (sweepLevels algorithm buffer originalSize w1))
    (fst (sweepLevels algorithm buffer originalSize w2)).
Proof.
  unfold sweepLevels.
  apply (for_of_sameOutcome (map timeless) (fun _ _ => True)); [|reflexivity|exact I].
  intros level ms1 ms2 wa wb Hms _. split; [|exact I].
  unfold bind. rewrite !measure_eq.
  destruct (alg_compress algorithm buffer level) as [compressed|e]; simpl; [|reflexivity].
  now apply push_erased.
Qed.

(** The sweep of a buffer yields the same names, levels, sizes and ratios
    whatever the world it runs in. *)
Lemma sweep_timeless registry buffer originalSize w1 w2 :
  sameOutcome (map timelessResult)
    (fst (sweep registry buffer originalSize w1))
    (fst (sweep registry buffer originalSize w2)).
Proof.
  unfold sweep.
  apply (for_of_sameOutcome (map timelessResult) (fun _ _ => True)); [|reflexivity|exact I].
  intros algorithm rs1 rs2 wa wb Hrs _. split; [|exact I].
  unfold sweepAlgorithm, bind.
  pose proof (sweepLevels_timeless algorithm buffer originalSize wa wb) as Hms.
  destruct (sweepLevels algorithm buffer originalSize wa) as [[ms1|e1] wa'],
           (sweepLevels algorithm buffer originalSize wb) as [[ms2|e2] wb'];
    simpl in Hms; try contradiction; [|exact Hms].
  rewrite !when_verbose. simpl. apply push_erased; [exact Hrs|].
  unfold timelessResult. simpl. now rewrite Hms.
Qed.

(** The chart description does not hold the times. *)
Lemma chartConfiguration_timeless file buffer rs1 rs2 :
  map timelessResult rs1 = map timelessResult rs2 ->
  chartConfiguration (fileResultOf file buffer rs1)
  = chartConfiguration (fileResultOf file buffer rs2).
Proof.
  intros Hrs. unfold chartConfiguration, fileResultOf. simpl. f_equal.
  revert rs2 Hrs. induction rs1 as [|r1 rs1 IH]; intros [|r2 rs2] Hrs;
    try discriminate; [reflexivity|].
  injection Hrs as Hname Hms Hrest. simpl. rewrite Hname, (IH _ Hrest). do 2 f_equal.
  clear -Hms. revert Hms. generalize (ar_measurements r2).
  induction (ar_measurements r1) as [|m1 ms1 IHm]; intros [|m2 ms2] Hms;
    try discriminate; [reflexivity|].
  injection Hms as Hl _ Hr Hms. simpl. now rewrite Hl, Hr, (IHm _ Hms).
Qed.

Lemma processFile_timeless file results1 results2 w1 w2 :
  map timelessEntry results1 = map timelessEntry results2 ->
  w_fs w1 = w_fs w2 ->
  sameOutcome (map timelessEntry)
    (fst (processFile file results1 w1)) (fst (processFile file results2 w2)) /\
  w_fs (snd (processFile file results1 w1)) = w_fs (snd (processFile file results2 w2)).
Proof.
  intros Hresults Hfs. rewrite !processFile_eq, <- Hfs.
  destruct (fs_existsSync _ _); [|now split].
  destruct (fs_readFileSync _ _) as [buffer|e]; [|now split].
  pose proof (sweep_timeless algorithms buffer (Buffer_length buffer)
                (sweepStart file buffer w1) (sweepStart file buffer w2)) as Hsweep.
  pose proof (sweep_fs algorithms buffer (Buffer_length buffer)
                (sweepStart file buffer w1)) as Hfs1.
  pose proof (sweep_fs algorithms buffer (Buffer_length buffer)
                (sweepStart file buffer w2)) as Hfs2.
  unfold sweepStart in Hfs1, Hfs2. rewrite logVerbose_fs in Hfs1, Hfs2.
  fold (sweepStart file buffer w1) in Hfs1. fold (sweepStart file buffer w2) in Hfs2.
  destruct (sweep _ _ _ (sweepStart file buffer w1)) as [[rs1|e1] wa],
           (sweep _ _ _ (sweepStart file buffer w2)) as [[rs2|e2] wb];
    simpl in Hsweep, Hfs1, Hfs2; try contradiction.
  - cbv zeta. rewrite (chartConfiguration_timeless _ _ _ _ Hsweep).
    destruct (renderToBufferSync _ _) as [chartSvg|error].
    + rewrite !logVerbose_fs, Hfs1, Hfs2, <- Hfs.
      destruct (fs_writeFileSync _ _ _) as [fs'|e]; cbn [fst snd sameOutcome].
      * rewrite !logVerbose_fs. split; [|reflexivity].
        apply push_erased; [exact Hresults|].
        unfold timelessEntry. simpl. now rewrite Hsweep.
      * rewrite !logVerbose_fs. split; [reflexivity|congruence].
    + cbn [fst snd sameOutcome]. rewrite !renderFailed_fs. split; [reflexivity|congruence].
  - cbn [fst snd sameOutcome]. split; [exact Hsweep|congruence].
Qed.

Lemma firstExisting_same_fs id packageName candidates w1 w2 :
  w_fs w1 = w_fs w2 ->
  fst (firstExisting id packageName candidates w1)
  = fst (firstExisting id packageName candidates w2).
Proof.
  intros Hfs. induction candidates as [|candidate rest IH]; [reflexivity|].
  simpl. unfold bind, call.
  destruct (pathSegmentsOf (lc_pathSegments candidate)) as [segments|e]; [|reflexivity].
  rewrite !resolvePackageFile_eq, Hfs.
  destruct (require_resolve _ _ _) as [packageJsonPath|e]; [|reflexivity].
  unfold existsSync. rewrite Hfs. destruct (fs_existsSync _ _); [reflexivity|exact IH].
Qed.

Lemma createPackageFile_same_fs spec w1 w2 :
  w_fs w1 = w_fs w2 ->
  fst (createPackageFile spec w1) = fst (createPackageFile spec w2).
Proof.
  intros Hfs. unfold createPackageFile, bind, call.
  destruct (candidateList spec) as [candidates|e]; [|reflexivity].
  pose proof (firstExisting_same_fs (s_id spec) (s_packageName spec) candidates w1 w2 Hfs)
    as Hsame.
  destruct (firstExisting _ _ _ w1) as [[[file1|]|e1] wa],
           (firstExisting _ _ _ w2) as [[[file2|]|e2] wb];
    simpl in Hsame; try discriminate.
  - injection Hsame as ->. reflexivity.
  - destruct (attempted (s_packageName spec) candidates); reflexivity.
  - injection Hsame as ->. reflexivity.
Qed.

(** C9: the pipeline is deterministic.  From the same state of the file
    system, [createPackageFile] on the same specification has the same
    outcome (the same file, hence the same absolute path, or the same
    error); the sweep of the same bytes has the same outcome up to the
    times, in any two worlds, whatever the timer reads; and two runs of the
    loop over the files from the same state of the file system have the
    same outcome up to the times: the same entries with the same sizes and
    ratios. *)
Theorem pipeline_deterministic spec files w1 w2 registry buffer originalSize w3 w4 :
  w_fs w1 = w_fs w2 ->
  fst (createPackageFile spec w1) = fst (createPackageFile spec w2) /\
  sameOutcome (map timelessResult)
    (fst (sweep registry buffer originalSize w3))
    (fst (sweep registry buffer originalSize w4)) /\
  sameOutcome (map timelessEntry)
    (fst (processFiles files w1)) (fst (processFiles files w2)).
Proof.
  intros Hfs. split; [now apply createPackageFile_same_fs|].
  split; [apply sweep_timeless|].
  unfold processFiles.
  apply (for_of_sameOutcome (map timelessEntry) (fun wa wb => w_fs wa = w_fs wb));
    [|reflexivity|exact Hfs].
  intros file results1 results2 wa wb. apply processFile_timeless.
Qed.

(** C10: the sweep of the superseded variant is the sweep of the current
    variant: the registries are equal, the two sweeps are the same function,
    and run in any two worlds on the same registry and the same buffer they
    have the same outcome up to the times: the same algorithm names,
    levels, sizes and ratios in the same order. *)
Theorem superseded_sweep_equivalent registry buffer originalSize w1 w2 :
  Superseded.algorithms = algorithms /\
  Superseded.sweep registry buffer originalSize w1 = sweep registry buffer originalSize w1 /\
  sameOutcome (map timelessResult)
    (fst (Superseded.sweep registry buffer originalSize w1))
    (fst (sweep registry buffer originalSize w2)).
Proof.
  split; [reflexivity|]. split; [reflexivity|].
  change (Superseded.sweep registry buffer originalSize w1)
    with (sweep registry buffer originalSize w1).
  apply sweep_timeless.
Qed.

End Determinism.

Lemma pipeline_deterministic_witness :
  let w1 := Stub.world (H:=Stub.host) Stub.twoFs in
  let w2 := Stub.later in
  let sweep1 := fst (sweep (H:=Stub.host) (algorithms (H:=Stub.host)) (Stub.zeros 3) 3 w1) in
  let sweep2 := fst (sweep (H:=Stub.host) (algorithms (H:=Stub.host)) (Stub.zeros 3) 3 w2) in
  w_fs w1 = w_fs w2 /\
  Stub.firstTime sweep1 = Some (number_of_Z 1) /\
  Stub.firstTime sweep2 = Some (number_of_Z 15) /\
  fst (createPackageFile (H:=Stub.host) Stub.fontSpec w1)
  = fst (createPackageFile (H:=Stub.host) Stub.fontSpec w2) /\
  sameOutcome (map timelessResult) sweep1 sweep2 /\
  sameOutcome (map timelessEntry)
    (fst (processFiles (H:=Stub.host) [Stub.fileA; Stub.fileB] w1))
    (fst (processFiles (H:=Stub.host) [Stub.fileA; Stub.fileB] w2)).
Proof.
  cbv zeta. split; [reflexivity|]. split; [reflexivity|]. split; [reflexivity|].
  apply (pipeline_deterministic (H:=Stub.host)). reflexivity.
Defined.

(** ** The ratio of a measurement *)

Section Ratio.
Context `{H : Host}.

Lemma measured_ratioOf algorithm buffer level m :
  measured algorithm buffer (Buffer_length buffer) level m ->
  ratioOf buffer algorithm level m.
Proof.
  intros (_ & compressed & Hc & Hsize & Hratio).
  exists compressed. rewrite Hsize. repeat split; try assumption.
  - intros Ho Hs. rewrite Hratio. now apply js_div_lengths_positive.
  - intros Ho Hs. rewrite Hratio, Hs. now apply js_div_zero_length.
Qed.

Lemma sweep_ratios registry buffer w rs w' :
  sweep registry buffer (Buffer_length buffer) w = (Normal rs, w') ->
  Forall2 (fun algorithm r =>
             Forall2 (ratioOf buffer algorithm) (alg_levels algorithm) (ar_measurements r))
          registry rs.
Proof.
  intros Hrun. apply sweep_sweptAs in Hrun.
  eapply Forall2_impl; [exact Hrun|].
  intros algorithm r [_ Hms]. eapply Forall2_impl; [exact Hms|].
  intros level m. apply measured_ratioOf.
Qed.

Lemma measured_ratioOverOriginal algorithm buffer level m :
  neverEmpty (alg_compress algorithm) ->
  measured algorithm buffer (Buffer_length buffer) level m ->
  ratioOverOriginal buffer algorithm level m.
Proof.
  intros Hne (_ & compressed & Hc & Hsize & Hratio).
  exists compressed. rewrite Hsize. repeat split; try assumption.
  intros Ho Hs. rewrite Hratio. apply js_div_lengths_positive; [|exact Ho].
  split; [|exact Hs]. specialize (Hne _ _ _ Hc). unfold Buffer_length.
  destruct compressed; [congruence|]. cbn [length]. lia.
Qed.

(** The registry of the script calls the three codecs and nothing else. *)
Lemma algorithms_neverEmpty :
  codecsNeverEmpty -> Forall (fun algorithm => neverEmpty (alg_compress algorithm)) algorithms.
Proof.
  intros (Hgzip & Hbrotli & Hzstd). unfold algorithms.
  repeat constructor; intros buffer level compressed; cbn [alg_compress].
  - apply Hgzip.
  - apply Hbrotli.
  - destruct zlib_zstdCompressSync as [zstd|] eqn:Hz; [|discriminate].
    now apply (Hzstd zstd).
Qed.

(** C2: every measurement of a completed sweep of the script's registry has
    the length of the compressed output as its size and that size divided
    by the original length as its ratio, the division being that of
    binary64 numbers and the original length the one length of the buffer
    swept, the same for every algorithm and level; the ratio is greater
    than zero whenever the original length is (lengths up to the longest
    Buffer).  The codecs of the registry are those of [zlib], which never
    return an empty buffer. *)
Theorem sweep_ratio_is_size_over_original buffer w rs w' :
  codecsNeverEmpty ->
  sweep algorithms buffer (Buffer_length buffer) w = (Normal rs, w') ->
  Forall2 (fun algorithm r =>
             Forall2 (ratioOverOriginal buffer algorithm)
                     (alg_levels algorithm) (ar_measurements r))
          algorithms rs.
Proof.
  intros Hcodecs Hrun. apply sweep_sweptAs in Hrun.
  pose proof (algorithms_neverEmpty Hcodecs) as Hne.
  induction Hrun as [|algorithm r registry rs [_ Hms] _ IH]; [constructor|].
  inversion Hne as [|? ? Halgorithm Hrest]; subst.
  constructor; [|now apply IH].
  eapply Forall2_impl; [exact Hms|].
  intros level m. now apply measured_ratioOverOriginal.
Qed.

(** [main] sweeps each file with the length of the buffer it has read, taken
    once, before the loops: the original size of the entry is that length,
    and every ratio of the entry is a size divided by it. *)
Lemma processFile_ratios file results w out w' :
  processFile file results w = (Normal out, w') ->
  exists buffer entry,
    fs_readFileSync (w_fs w) (pf_absolutePath file) = Normal buffer /\
    out = push results entry /\
    fr_originalSize (re_file entry) = Buffer_length buffer /\
    Forall2 (fun algorithm r =>
               Forall2 (ratioOf buffer algorithm) (alg_levels algorithm) (ar_measurements r))
            algorithms (fr_algorithms (re_file entry)).
Proof.
  rewrite processFile_eq.
  destruct (fs_existsSync _ _); [|discriminate].
  destruct (fs_readFileSync _ _) as [buffer|e]; [|discriminate].
  cbv zeta.
  destruct (sweep _ _ _ _) as [[algorithmResults|e] w2] eqn:Hsweep; [|discriminate].
  destruct (renderToBufferSync _ _) as [chartSvg|error]; [|discriminate].
  destruct (fs_writeFileSync _ _ _) as [fs'|e]; [|discriminate].
  intros [= <- _]. exists buffer. eexists. repeat split.
  simpl. now apply sweep_ratios in Hsweep.
Qed.

End Ratio.

Lemma sweep_ratio_is_size_over_original_witness :
  Forall2 (fun algorithm r =>
             Forall2 (ratioOverOriginal (Stub.zeros 10) algorithm)
                     (alg_levels algorithm) (ar_measurements r))
          (algorithms (H:=Stub.host)) Stub.sweepResults.
Proof.
  assert (neverEmpty Stub.keepPrefix) as Hkeep.
  { intros buffer level compressed Hc. injection Hc as <-. discriminate. }
  apply (sweep_ratio_is_size_over_original (H:=Stub.host) (Stub.zeros 10)
           (Stub.world (H:=Stub.host) ∅) _ (snd Stub.sweepRun)).
  - split; [exact Hkeep|]. split; [exact Hkeep|].
    intros zstdCompressSync Hzstd. injection Hzstd as <-. exact Hkeep.
  - apply (run_eta (H:=Stub.host)). reflexivity.
Defined.

(** The hypothesis on the codecs is what makes the ratio positive: the
    sweep itself does not look at the size.  An algorithm whose [compress]
    returned an empty buffer, swept on a buffer of 1000 bytes, would yield
    a measurement of size 0 whose ratio is zero. *)
Lemma ratio_not_positive_for_empty_output :
  exists m w',
    sweep (H:=Stub.host) [Stub.emptyOutput] (Stub.zeros 1000)
          (Buffer_length (Stub.zeros 1000)) (Stub.world (H:=Stub.host) ∅)
    = (Normal [{| ar_name := "empty"; ar_measurements := [m] |}], w') /\
    0 < Buffer_length (Stub.zeros 1000) /\
    m_size m = 0 /\
    m_ratio m = zero /\
    js_lt zero (m_ratio m) = false.
Proof.
  eexists _, _. split; [reflexivity|]. repeat split.
Qed.

(** * More of the script *)

(** ** The artifact resolver, case by case *)

Section ResolverCases.
Context `{H : Host}.

Lemma mapC_inv {A B} (f : A -> completion B) (l : list A) (l' : list B) :
  mapC f l = Normal l' -> Forall2 (fun x y => f x = Normal y) l l'.
Proof.
  revert l'. induction l as [|x l IH]; intros l' Hmap; simpl in Hmap.
  - injection Hmap as <-. constructor.
  - destruct (f x) as [y|e] eqn:Hx; [|discriminate].
    destruct (mapC f l) as [ys|e]; [|discriminate].
    injection Hmap as <-. constructor; [exact Hx | now apply IH].
Qed.

Lemma listCandidate_toListed packageName candidate listedCandidate :
  listCandidate packageName candidate = Normal listedCandidate ->
  listedCandidate = toListed packageName candidate.
Proof.
  unfold listCandidate, toListed, displayNameOf, segmentsOf.
  destruct (c_displayName candidate) as [displayName|].
  - now intros [= <-].
  - destruct (c_pathSegments candidate) as [segments|]; simpl; [|discriminate].
    now intros [= <-].
Qed.

Lemma candidateList_toListed spec candidates :
  candidateList spec = Normal candidates ->
  candidates = map (toListed (s_packageName spec)) (declaredCandidates spec).
Proof.
  intros Hlist. apply mapC_inv in Hlist. fold (declaredCandidates spec) in Hlist.
  induction Hlist as [|candidate listedCandidate cs ls Hc _ IH]; [reflexivity|].
  simpl. apply listCandidate_toListed in Hc. now rewrite Hc, IH.
Qed.

(** What the loop of lines 43-53 returns is the first candidate that
    exists. *)
Lemma firstExisting_found id packageName candidates w file w' :
  firstExisting id packageName (map (toListed packageName) candidates) w
    = (Normal (Some file), w') ->
  exists packageJsonPath before candidate after,
    require_resolve (w_fs w) (path_join [packageName; "package.json"]) [repoRoot]
      = Normal packageJsonPath /\
    candidates = before ++ candidate :: after /\
    Forall (fun earlier =>
              fs_existsSync (w_fs w) (probed packageJsonPath earlier) = false) before /\
    fs_existsSync (w_fs w) (probed packageJsonPath candidate) = true /\
    file = {| pf_id := id;
              pf_displayName := displayNameOf packageName candidate;
              pf_absolutePath := probed packageJsonPath candidate;
              pf_relativePath :=
                path_relative repoRoot (probed packageJsonPath candidate) |}.
Proof.
  induction candidates as [|candidate rest IH]; [discriminate|].
  simpl. unfold bind at 1. unfold call.
  destruct (c_pathSegments candidate) as [segments|] eqn:Hs; [|discriminate].
  simpl. unfold bind at 1. rewrite resolvePackageFile_eq.
  destruct (require_resolve _ _ _) as [packageJsonPath|e] eqn:Hroot; [|discriminate].
  unfold bind at 1. unfold existsSync.
  destruct (fs_existsSync _ _) eqn:Hexists.
  - intros [= <- _]. exists packageJsonPath, [], candidate, rest.
    unfold probed, segmentsOf. rewrite Hs. simpl. repeat split; [constructor|exact Hexists].
  - intros Hrest. apply IH in Hrest
      as (packageJsonPath' & before & found & after & Hroot' & -> & Hmiss & Hhit & ->).
    assert (packageJsonPath' = packageJsonPath) as -> by congruence.
    exists packageJsonPath, (candidate :: before), found, after.
    repeat split; try assumption.
    constructor; [|exact Hmiss]. unfold probed, segmentsOf. now rewrite Hs.
Qed.

(** What [createPackageFile] returns was found by the loop over the listed
    candidates. *)
Lemma createPackageFile_found spec w file w' :
  createPackageFile spec w = (Normal file, w') ->
  firstExisting (s_id spec) (s_packageName spec)
    (map (toListed (s_packageName spec)) (declaredCandidates spec)) w
  = (Normal (Some file), w').
Proof.
  intros Hrun. unfold createPackageFile in Hrun.
  apply bind_inv_normal in Hrun as (candidates & w1 & Hlist & Hrun).
  unfold call in Hlist. injection Hlist as Hlist <-.
  apply candidateList_toListed in Hlist. subst candidates.
  apply bind_inv_normal in Hrun as (hit & w2 & Hloop & Hrun).
  destruct hit as [found|].
  - now injection Hrun as -> ->.
  - unfold bind, call in Hrun. destruct (attempted _ _); discriminate.
Qed.

(** X1: a file that [createPackageFile] returns is the first declared
    candidate that exists under the resolved package root: the package
    resolved, every candidate declared before it was probed and is missing,
    the returned absolute path is the probed path of the candidate and
    exists, the display name is the candidate's or its default, the id is
    the specification's, and the world is left as it was. *)
Theorem createPackageFile_returns_first_existing spec w file w' :
  createPackageFile spec w = (Normal file, w') ->
  w' = w /\
  exists packageJsonPath before candidate after,
    require_resolve (w_fs w) (path_join [s_packageName spec; "package.json"]) [repoRoot]
      = Normal packageJsonPath /\
    declaredCandidates spec = before ++ candidate :: after /\
    Forall (fun earlier =>
              fs_existsSync (w_fs w) (probed packageJsonPath earlier) = false) before /\
    fs_existsSync (w_fs w) (pf_absolutePath file) = true /\
    file = {| pf_id := s_id spec;
              pf_displayName := displayNameOf (s_packageName spec) candidate;
              pf_absolutePath := probed packageJsonPath candidate;
              pf_relativePath :=
                path_relative repoRoot (probed packageJsonPath candidate) |}.
Proof.
  intros Hrun. split.
  { pose proof (createPackageFile_world spec w) as Hw. now rewrite Hrun in Hw. }
  apply createPackageFile_found, firstExisting_found in Hrun
    as (packageJsonPath & before & candidate & after & Hroot & Hdecl & Hmiss & Hhit & ->).
  exists packageJsonPath, before, candidate, after. repeat split; assumption.
Qed.

(** X2: when the package of a specification cannot be resolved,
    [createPackageFile] throws the error of [require.resolve] itself, not
    its own "Required file not found" error, and leaves the world as it
    was. *)
Theorem createPackageFile_unresolved_package spec w first rest e :
  declaredCandidates spec = first :: rest ->
  Forall hasSegments (declaredCandidates spec) ->
  require_resolve (w_fs w) (path_join [s_packageName spec; "package.json"]) [repoRoot]
    = Throw e ->
  createPackageFile spec w = (Throw e, w).
Proof.
  intros Hdecl Hwf Hroot. unfold createPackageFile.
  unfold bind at 1. unfold call. rewrite (candidateList_declared _ Hwf), Hdecl.
  rewrite Hdecl in Hwf. inversion Hwf as [|? ? [segments Hs] _]; subst.
  simpl. unfold bind at 1 2. unfold call. rewrite Hs. simpl.
  unfold bind at 1. now rewrite resolvePackageFile_eq, Hroot.
Qed.

(** X3: a specification that declares no candidate (its [candidates] is
    empty or holds only [null]) is never resolved, not even as far as its
    package: [createPackageFile] throws the "Required file not found" error
    with nothing after "Tried: ". *)
Theorem createPackageFile_no_candidates spec w :
  declaredCandidates spec = [] ->
  createPackageFile spec w
  = (Throw (Error ("Required file not found for " +:+ s_packageName spec
                   +:+ ". Tried: ")), w).
Proof.
  intros Hdecl. unfold createPackageFile.
  unfold bind at 1. unfold call.
  rewrite candidateList_declared by (rewrite Hdecl; constructor).
  rewrite Hdecl. reflexivity.
Qed.

(** X4: when a specification has [candidates], its own [pathSegments] and
    [displayName] are not looked at, and neither are the [null] entries of
    [candidates]: changing the former and dropping the latter changes
    nothing of what [createPackageFile] does. *)
Theorem createPackageFile_ignores_spec_fields spec candidates pathSegments displayName w :
  s_candidates spec = Some candidates ->
  createPackageFile
    {| s_id := s_id spec; s_displayName := displayName; s_packageName := s_packageName spec;
       s_pathSegments := pathSegments; s_candidates := Some (filter is_Some candidates) |} w
  = createPackageFile spec w.
Proof.
  intros Hc. unfold createPackageFile, candidateList. simpl. rewrite Hc.
  replace (omap id (filter is_Some candidates)) with (omap id candidates); [reflexivity|].
  clear Hc. induction candidates as [|[c|] cs IH]; [reflexivity| |].
  - rewrite filter_cons_True by (now eexists).
    change (c :: omap id cs = c :: omap id (filter is_Some cs)). now f_equal.
  - rewrite filter_cons_False by apply is_Some_None. exact IH.
Qed.

(** X5: the display names of all candidates are computed before any
    candidate is probed, so a candidate with neither a display name nor path
    segments makes [createPackageFile] throw a [TypeError], whether or not a
    candidate declared before it exists. *)
Theorem createPackageFile_malformed_candidate spec w before candidate after :
  declaredCandidates spec = before ++ candidate :: after ->
  Forall hasSegments before ->
  c_pathSegments candidate = None ->
  c_displayName candidate = None ->
  exists message, createPackageFile spec w = (Throw (TypeError message), w).
Proof.
  intros Hdecl Hwf Hs Hd. unfold createPackageFile, candidateList.
  fold (declaredCandidates spec). rewrite Hdecl.
  assert (forall l, mapC (listCandidate (s_packageName spec)) (before ++ candidate :: l)
                    = Throw (TypeError "candidate.pathSegments is undefined")) as Hmap.
  { intros l. clear Hdecl. induction Hwf as [|c cs Hc _ IH]; simpl.
    - unfold listCandidate. rewrite Hd, Hs. reflexivity.
    - rewrite (listCandidate_hasSegments _ _ Hc). now rewrite IH. }
  rewrite Hmap. now eexists.
Qed.

(** The files come out in the order of the specifications, each the
    resolution of its specification. *)
Lemma resolveAll_each acc specs w files w' :
  for_of specs acc (fun spec files => file <- createPackageFile spec ;; ret (push files file)) w
    = (Normal files, w') ->
  w' = w /\
  exists new, files = acc ++ new /\
    Forall2 (fun spec file => createPackageFile spec w = (Normal file, w)) specs new.
Proof.
  revert acc w. induction specs as [|spec specs IH]; intros acc w Hrun.
  - injection Hrun as <- <-. split; [reflexivity|]. exists []. now rewrite app_nil_r.
  - rewrite for_of_cons in Hrun.
    apply bind_inv_normal in Hrun as (acc1 & w1 & Hspec & Hrest).
    apply bind_inv_normal in Hspec as (file & w0 & Hfile & [= <- <-]).
    pose proof (createPackageFile_world spec w) as Hw. rewrite Hfile in Hw. simpl in Hw.
    subst w0. apply IH in Hrest as (-> & new & -> & Hnew).
    split; [reflexivity|]. exists (file :: new). split.
    + unfold push. now rewrite <- app_assoc.
    + now constructor.
Qed.

(** X6: when the literal [files] is evaluated to its end, it holds one file
    per specification, in the order of the specifications, each with the id
    of its specification and each what [createPackageFile] returns for it in
    the initial world, which is also the world in which [main] starts. *)
Theorem resolveAll_in_order specs w files w' :
  resolveAll specs w = (Normal files, w') ->
  w' = w /\
  Forall2 (fun spec file =>
             createPackageFile spec w = (Normal file, w) /\ pf_id file = s_id spec)
          specs files.
Proof.
  intros Hrun. apply resolveAll_each in Hrun as (-> & new & -> & Hnew).
  split; [reflexivity|]. simpl.
  eapply Forall2_impl; [exact Hnew|].
  intros spec file Hfile. split; [exact Hfile|].
  apply createPackageFile_found, firstExisting_found in Hfile
    as (pj & before & candidate & after & _ & _ & _ & _ & ->).
  reflexivity.
Qed.

(** X7: the first specification that [createPackageFile] rejects ends the
    evaluation of the literal [files] with its error, whatever
    specifications follow it. *)
Theorem resolveAll_stops_at_first_failure before spec after w e :
  Forall (fun earlier => isNormal (fst (createPackageFile earlier w)) = true) before ->
  createPackageFile spec w = (Throw e, w) ->
  resolveAll (before ++ spec :: after) w = (Throw e, w).
Proof.
  intros Hbefore Hspec. unfold resolveAll. generalize (@nil PackageFile) as acc.
  induction Hbefore as [|earlier before Hearlier _ IH]; intros acc.
  - simpl. unfold bind at 1 2. now rewrite Hspec.
  - simpl. unfold bind at 1 2.
    pose proof (createPackageFile_world earlier w) as Hw.
    destruct (createPackageFile earlier w) as [[file|e'] w0]; [|discriminate].
    simpl in Hw. subst w0. apply IH.
Qed.

End ResolverCases.

Lemma createPackageFile_returns_first_existing_witness :
  let w := Stub.world (H:=Stub.host) Stub.fontFs in
  createPackageFile (H:=Stub.host) Stub.fontSpec w = (Normal Stub.fontFile, w) /\
  exists packageJsonPath before candidate after,
    declaredCandidates Stub.fontSpec = before ++ candidate :: after /\
    Forall (fun earlier =>
              fs_existsSync (Host:=Stub.host) Stub.fontFs
                (probed (H:=Stub.host) packageJsonPath earlier) = false) before /\
    pf_absolutePath Stub.fontFile = probed (H:=Stub.host) packageJsonPath candidate.
Proof.
  cbv zeta. split; [reflexivity|].
  destruct (createPackageFile_returns_first_existing (H:=Stub.host) Stub.fontSpec
              (Stub.world (H:=Stub.host) Stub.fontFs) Stub.fontFile
              (Stub.world (H:=Stub.host) Stub.fontFs) eq_refl)
    as (_ & packageJsonPath & before & candidate & after & _ & Hdecl & Hmiss & _ & Hfile).
  exists packageJsonPath, before, candidate, after.
  split; [exact Hdecl|]. split; [exact Hmiss|].
  exact (f_equal pf_absolutePath Hfile).
Defined.

Lemma createPackageFile_unresolved_package_witness :
  createPackageFile (H:=Stub.host) Stub.fontSpec (Stub.world (H:=Stub.host) ∅)
  = (Throw (Exn "Error"
              "Cannot find module @expo-google-fonts/noto-sans-jp/package.json"),
     Stub.world (H:=Stub.host) ∅).
Proof.
  apply (createPackageFile_unresolved_package (H:=Stub.host) Stub.fontSpec
           (Stub.world (H:=Stub.host) ∅) Stub.nestedFont [Stub.rootFont]).
  - reflexivity.
  - repeat constructor; eexists; reflexivity.
  - reflexivity.
Defined.

Lemma createPackageFile_no_candidates_witness :
  createPackageFile (H:=Stub.host) Stub.nullSpec (Stub.world (H:=Stub.host) Stub.fontFs)
  = (Throw (Error
              "Required file not found for @expo-google-fonts/noto-sans-jp. Tried: "),
     Stub.world (H:=Stub.host) Stub.fontFs).
Proof.
  apply (createPackageFile_no_candidates (H:=Stub.host) Stub.nullSpec
           (Stub.world (H:=Stub.host) Stub.fontFs)).
  reflexivity.
Defined.

Lemma createPackageFile_ignores_spec_fields_witness :
  let w := Stub.world (H:=Stub.host) Stub.fontFs in
  createPackageFile (H:=Stub.host) Stub.sparseSpec w = (Normal Stub.fontFile, w) /\
  createPackageFile (H:=Stub.host)
    {| s_id := "noto-sans-jp"; s_displayName := None;
       s_packageName := "@expo-google-fonts/noto-sans-jp"; s_pathSegments := None;
       s_candidates := Some [Some Stub.rootFont] |} w
  = createPackageFile (H:=Stub.host) Stub.sparseSpec w.
Proof.
  cbv zeta. split; [reflexivity|].
  exact (createPackageFile_ignores_spec_fields (H:=Stub.host) Stub.sparseSpec
           [None; Some Stub.rootFont] None None
           (Stub.world (H:=Stub.host) Stub.fontFs) eq_refl).
Defined.

Lemma createPackageFile_malformed_candidate_witness :
  let w := Stub.world (H:=Stub.host) Stub.fontFs in
  fs_existsSync (Host:=Stub.host) Stub.fontFs (pf_absolutePath Stub.fontFile) = true /\
  exists message,
    createPackageFile (H:=Stub.host) Stub.malformedSpec w = (Throw (TypeError message), w).
Proof.
  cbv zeta. split; [reflexivity|].
  apply (createPackageFile_malformed_candidate (H:=Stub.host) Stub.malformedSpec
           (Stub.world (H:=Stub.host) Stub.fontFs) [Stub.rootFont]
           {| c_pathSegments := None; c_displayName := None |} []).
  - reflexivity.
  - repeat constructor; eexists; reflexivity.
  - reflexivity.
  - reflexivity.
Defined.

Lemma resolveAll_in_order_witness :
  let w := Stub.world (H:=Stub.host) Stub.fontFs in
  Forall2 (fun spec file =>
             createPackageFile (H:=Stub.host) spec w = (Normal file, w) /\
             pf_id file = s_id spec)
          [Stub.fontSpec; Stub.sparseSpec] [Stub.fontFile; Stub.fontFile].
Proof.
  exact (proj2 (resolveAll_in_order (H:=Stub.host) [Stub.fontSpec; Stub.sparseSpec]
                  (Stub.world (H:=Stub.host) Stub.fontFs)
                  [Stub.fontFile; Stub.fontFile]
                  (Stub.world (H:=Stub.host) Stub.fontFs) eq_refl)).
Defined.

Lemma resolveAll_stops_at_first_failure_witness :
  resolveAll (H:=Stub.host) [Stub.fontSpec; Stub.nullSpec; Stub.malformedSpec]
             (Stub.world (H:=Stub.host) Stub.fontFs)
  = (Throw (Error
              "Required file not found for @expo-google-fonts/noto-sans-jp. Tried: "),
     Stub.world (H:=Stub.host) Stub.fontFs).
Proof.
  apply (resolveAll_stops_at_first_failure (H:=Stub.host) [Stub.fontSpec] Stub.nullSpec
           [Stub.malformedSpec] (Stub.world (H:=Stub.host) Stub.fontFs)).
  - repeat constructor.
  - reflexivity.
Defined.

(** ** The sweep: the timer, the console and the errors of [compress] *)

Section SweepTimer.
Context `{H : Host}.

(** A loop keeps what each of its iterations keeps, however it ends. *)
Lemma for_of_keeps {A S B} (proj : World -> B) (body : A -> S -> M S) :
  (forall x s w, proj (snd (body x s w)) = proj w) ->
  forall xs s w, proj (snd (for_of xs s body w)) = proj w.
Proof.
  intros Hbody. induction xs as [|x xs IH]; intros s w; [reflexivity|].
  rewrite for_of_cons. unfold bind. specialize (Hbody x s w).
  destruct (body x s w) as [[s1|e] w1]; simpl in Hbody; [|exact Hbody].
  now rewrite IH.
Qed.

Lemma measure_keeps {B} (proj : World -> B) algorithm buffer originalSize level w :
  (forall w0, proj (tick w0) = proj w0) ->
  proj (snd (measure algorithm buffer originalSize level w)) = proj w.
Proof.
  intros Htick. rewrite measure_eq.
  destruct (alg_compress algorithm buffer level); simpl; now rewrite ?Htick.
Qed.

(** The sweep keeps whatever the timer and the progress lines keep. *)
Lemma sweep_keeps {B} (proj : World -> B) registry buffer originalSize w :
  (forall w0, proj (tick w0) = proj w0) ->
  (forall line w0, proj (logVerbose line w0) = proj w0) ->
  proj (snd (sweep registry buffer originalSize w)) = proj w.
Proof.
  intros Htick Hlog. apply for_of_keeps. intros algorithm acc w0.
  unfold sweepAlgorithm, bind.
  assert (proj (snd (sweepLevels algorithm buffer originalSize w0)) = proj w0) as Hlevels.
  { apply for_of_keeps. intros level ms w1. unfold bind.
    pose proof (measure_keeps proj algorithm buffer originalSize level w1 Htick) as Hm.
    destruct (measure _ _ _ _ _) as [[m|e] w2]; exact Hm. }
  destruct (sweepLevels algorithm buffer originalSize w0) as [[ms|e] w1]; simpl in Hlevels;
    [|exact Hlevels].
  rewrite when_verbose. simpl. now rewrite Hlog.
Qed.

(** The measurements pushed by the loop over the levels, and the timer. *)
Lemma sweepLevels_loop_timer algorithm buffer originalSize levels acc w out w' :
  for_of levels acc (fun level measurements =>
    m <- measure algorithm buffer originalSize level ;; ret (push measurements m)) w
    = (Normal out, w') ->
  exists new,
    out = acc ++ new /\ length new = length levels /\
    w_ticks w' = (w_ticks w + 2 * length levels)%nat /\
    forall k m, new !! k = Some m ->
      m_time m = js_sub (performance_now (w_ticks w + 2 * k + 1)%nat)
                        (performance_now (w_ticks w + 2 * k)%nat).
Proof.
  revert acc w. induction levels as [|level levels IH]; intros acc w Hrun.
  - injection Hrun as <- <-. exists []. rewrite app_nil_r. repeat split; [simpl; lia|].
    intros k m Hk. discriminate.
  - rewrite for_of_cons in Hrun.
    apply bind_inv_normal in Hrun as (acc1 & w1 & Hbody & Hrest).
    apply bind_inv_normal in Hbody as (m0 & w0 & Hm & [= <- <-]).
    rewrite measure_eq in Hm.
    destruct (alg_compress algorithm buffer level) as [compressed|e]; [|discriminate].
    injection Hm as <- <-.
    apply IH in Hrest as (new & -> & Hlen & Hticks & Htimes).
    eexists (_ :: new). split; [unfold push; now rewrite <- app_assoc|].
    split; [simpl; now rewrite Hlen|].
    split; [rewrite Hticks; simpl; lia|].
    intros [|k] m Hk.
    + injection Hk as <-. simpl. now rewrite !Nat.add_0_r, Nat.add_1_r.
    + simpl in Hk. rewrite (Htimes k m Hk). simpl w_ticks.
      f_equal; f_equal; lia.
Qed.

Lemma sweep_loop_timer buffer originalSize registry acc w out w' :
  for_of registry acc (sweepAlgorithm buffer originalSize) w = (Normal out, w') ->
  exists new,
    out = acc ++ new /\
    length (allMeasurements new) = length (declaredLevels registry) /\
    w_ticks w' = (w_ticks w + 2 * length (declaredLevels registry))%nat /\
    forall k m, allMeasurements new !! k = Some m ->
      m_time m = js_sub (performance_now (w_ticks w + 2 * k + 1)%nat)
                        (performance_now (w_ticks w + 2 * k)%nat).
Proof.
  revert acc w. induction registry as [|algorithm registry IH]; intros acc w Hrun.
  - injection Hrun as <- <-. exists []. rewrite app_nil_r. repeat split; [simpl; lia|].
    intros k m Hk. discriminate.
  - rewrite for_of_cons in Hrun.
    apply bind_inv_normal in Hrun as (acc1 & w1 & Hbody & Hrest).
    unfold sweepAlgorithm in Hbody.
    apply bind_inv_normal in Hbody as (ms & w0 & Hms & Hbody).
    apply bind_inv_normal in Hbody as ([] & w0' & Hlog & [= <- <-]).
    rewrite when_verbose in Hlog. injection Hlog as <-.
    unfold sweepLevels in Hms.
    apply sweepLevels_loop_timer in Hms as (new0 & Hnew0 & Hlen0 & Hticks0 & Htimes0).
    simpl in Hnew0. subst new0.
    apply IH in Hrest as (new & -> & Hlen & Hticks & Htimes).
    assert (w_ticks (logVerbose ("  Completed " +:+ alg_name algorithm +:+ " levels ("
                       +:+ pretty (length ms) +:+ " variants)") w0) = w_ticks w0) as Hlogt
      by (unfold logVerbose; now destruct verbose).
    rewrite Hlogt in *.
    eexists (_ :: new). split; [unfold push; now rewrite <- app_assoc|].
    unfold allMeasurements, declaredLevels in *. simpl.
    rewrite !length_app. split; [now rewrite Hlen0, Hlen|].
    split; [rewrite Hticks, Hticks0; lia|].
    intros k m Hk. apply lookup_app_Some in Hk as [Hk|[Hge Hk]].
    + now apply Htimes0.
    + rewrite (Htimes _ m Hk), Hticks0, Hlen0. f_equal; f_equal; lia.
Qed.

(** A loop that completes on a prefix of its items and throws on the next
    item throws, whatever items follow. *)
Lemma for_of_throws {A S} (body : A -> S -> M S) before x after s w s1 w1 e w2 :
  for_of before s body w = (Normal s1, w1) ->
  body x s1 w1 = (Throw e, w2) ->
  for_of (before ++ x :: after) s body w = (Throw e, w2).
Proof.
  intros Hbefore Hx. rewrite for_of_app, (bind_normal _ _ _ _ _ Hbefore), for_of_cons.
  now apply bind_throw.
Qed.

(** X12: an error thrown by [compress] is not caught by the sweep: the first
    level at which the [compress] of an algorithm throws ends the sweep with
    that error, whatever levels and algorithms follow. *)
Theorem sweep_compress_error_propagates registry before algorithm after
    levelsBefore level levelsAfter buffer originalSize w e :
  registry = before ++ algorithm :: after ->
  Forall (fun earlier =>
            Forall (fun l => exists compressed,
                      alg_compress earlier buffer l = Normal compressed)
                   (alg_levels earlier)) before ->
  alg_levels algorithm = levelsBefore ++ level :: levelsAfter ->
  Forall (fun l => exists compressed, alg_compress algorithm buffer l = Normal compressed)
         levelsBefore ->
  alg_compress algorithm buffer level = Throw e ->
  fst (sweep registry buffer originalSize w) = Throw e.
Proof.
  intros -> Hbefore Hlevels HlevelsBefore Hthrow.
  destruct (sweep_completes before buffer originalSize w Hbefore) as (rs & w1 & Hrs).
  unfold sweep in *.
  assert (exists w2, sweepAlgorithm buffer originalSize algorithm rs w1 = (Throw e, w2))
    as (w2 & Halg).
  { unfold sweepAlgorithm, sweepLevels. rewrite Hlevels.
    assert (exists ms w3,
              for_of levelsBefore [] (fun level measurements =>
                m <- measure algorithm buffer originalSize level ;;
                ret (push measurements m)) w1 = (Normal ms, w3)) as (ms & w3 & Hms).
    { apply (for_of_completes _ _) with (2 := HlevelsBefore).
      intros l ms w0 (compressed & Hc). unfold bind. rewrite measure_eq, Hc.
      now eexists _, _. }
    eexists. apply bind_throw. eapply for_of_throws; [exact Hms|].
    unfold bind. now rewrite measure_eq, Hthrow. }
  now rewrite (for_of_throws _ _ _ _ _ _ _ _ _ _ Hrs Halg).
Qed.

(** X15: a sweep that completes has one measurement per declared level of
    the registry and has read the timer exactly twice per level: nothing
    else in the sweep reads the timer or the clock. *)
Theorem sweep_reads_timer_twice_per_level registry buffer originalSize w rs w' :
  sweep registry buffer originalSize w = (Normal rs, w') ->
  length (allMeasurements rs) = length (declaredLevels registry) /\
  w_ticks w' = (w_ticks w + 2 * length (declaredLevels registry))%nat.
Proof.
  intros Hrun. apply sweep_loop_timer in Hrun as (new & -> & Hlen & Hticks & _).
  now split.
Qed.

(** X16: the time of the [k]-th measurement of a sweep is the difference of
    two consecutive readings of the timer, the [2k+1]-th minus the [2k]-th
    since the sweep began: the readings around its own call of [compress],
    so the times of the other measurements are not part of it. *)
Theorem measurement_time_is_own_readings registry buffer originalSize w rs w' k m :
  sweep registry buffer originalSize w = (Normal rs, w') ->
  allMeasurements rs !! k = Some m ->
  m_time m = js_sub (performance_now (w_ticks w + 2 * k + 1)%nat)
                    (performance_now (w_ticks w + 2 * k)%nat).
Proof.
  intros Hrun Hk. apply sweep_loop_timer in Hrun as (new & -> & _ & _ & Htimes).
  now apply Htimes.
Qed.

(** X17: however it ends, a sweep leaves the file system and the exit code
    as they were, and when [BENCHMARK_VERBOSE] is not [1] it prints
    nothing. *)
Theorem sweep_only_reads_timer_and_logs registry buffer originalSize w :
  let w' := snd (sweep registry buffer originalSize w) in
  w_fs w' = w_fs w /\
  w_exitCode w' = w_exitCode w /\
  (verbose = false -> w_console w' = w_console w).
Proof.
  cbv zeta. repeat split.
  - apply (sweep_keeps w_fs); [reflexivity|]. intros. apply logVerbose_fs.
  - apply (sweep_keeps w_exitCode); [reflexivity|].
    intros line w0. unfold logVerbose. now destruct verbose.
  - intros Hquiet. apply (sweep_keeps w_console); [reflexivity|].
    intros line w0. unfold logVerbose. now rewrite Hquiet.
Qed.

(** X24: for an empty original file the ratio of a measurement is not a
    finite number: it is [NaN] when the compressed output is empty too, and
    [Infinity] otherwise. *)
Theorem ratio_of_empty_file registry w rs w' :
  sweep registry [] 0 w = (Normal rs, w') ->
  Forall (fun m =>
            (m_size m = 0 -> m_ratio m = S754_nan) /\
            (0 < m_size m <= kMaxLength -> m_ratio m = S754_infinity false))
         (allMeasurements rs).
Proof.
  intros Hrun. apply sweep_sweptAs in Hrun. unfold allMeasurements.
  induction Hrun as [|algorithm r registry rs [_ Hms] _ IH]; [constructor|].
  simpl. apply Forall_app. split; [|exact IH].
  clear IH. induction Hms as [|level m levels ms (_ & compressed & _ & Hsize & Hratio) _ IHm];
    constructor; [|exact IHm].
  rewrite Hratio, <- Hsize. split.
  - now intros ->.
  - intros Hs. destruct (number_of_Z_normal _ Hs) as (mantissa & e & -> & _). reflexivity.
Qed.

End SweepTimer.

Lemma sweep_compress_error_propagates_witness :
  fst (sweep (H:=Stub.host) [Stub.stubAlgorithm; Stub.failsAtTwo; Stub.emptyOutput]
             (Stub.zeros 10) 10 (Stub.world (H:=Stub.host) ∅))
  = Throw Stub.compressError.
Proof.
  apply (sweep_compress_error_propagates (H:=Stub.host)
           [Stub.stubAlgorithm; Stub.failsAtTwo; Stub.emptyOutput]
           [Stub.stubAlgorithm] Stub.failsAtTwo [Stub.emptyOutput] [1] 2 [3]).
  - reflexivity.
  - repeat constructor; eexists; reflexivity.
  - reflexivity.
  - repeat constructor; eexists; reflexivity.
  - reflexivity.
Defined.

Lemma sweep_reads_timer_twice_per_level_witness :
  length (allMeasurements (normalOr [] (fst Stub.smallSweep))) = 4%nat /\
  w_ticks (snd Stub.smallSweep) = 8%nat.
Proof.
  apply (sweep_reads_timer_twice_per_level (H:=Stub.host)
           [Stub.stubAlgorithm; Stub.emptyOutput] (Stub.zeros 10) 10
           (Stub.world (H:=Stub.host) ∅)).
  apply (run_normal (H:=Stub.host)). reflexivity.
Defined.

Lemma measurement_time_is_own_readings_witness :
  exists m,
    allMeasurements (normalOr [] (fst Stub.smallSweep)) !! 3%nat = Some m /\
    m_time m = js_sub (number_of_Z 49) (number_of_Z 36).
Proof.
  eexists. split; [reflexivity|].
  apply (measurement_time_is_own_readings (H:=Stub.host)
           [Stub.stubAlgorithm; Stub.emptyOutput] (Stub.zeros 10) 10
           (Stub.world (H:=Stub.host) ∅)
           (normalOr [] (fst Stub.smallSweep)) (snd Stub.smallSweep) 3).
  - apply (run_normal (H:=Stub.host)). reflexivity.
  - reflexivity.
Defined.

Lemma ratio_of_empty_file_witness :
  Forall (fun m =>
            (m_size m = 0 -> m_ratio m = S754_nan) /\
            (0 < m_size m <= kMaxLength -> m_ratio m = S754_infinity false))
         (allMeasurements (normalOr [] (fst Stub.emptySweep))).
Proof.
  apply (ratio_of_empty_file (H:=Stub.host) [Stub.stubAlgorithm; Stub.emptyOutput]
           (Stub.world (H:=Stub.host) ∅) _ (snd Stub.emptySweep)).
  apply (run_normal (H:=Stub.host)). reflexivity.
Defined.

(** ** The driver: what fails, what is printed, what is written *)

Section DriverCases.
Context `{H : Host}.

(** X8: on a Node without [zlib.zstdCompressSync] the script throws at its
    first statement: nothing is resolved, measured or written, the error is
    printed and the process exits with status 1. *)
Theorem script_requires_zstd specs w :
  zlib_zstdCompressSync = None ->
  node (script specs) w
  = setExitCode 1
      (print (StderrError (Error "Zstandard compression requires Node.js v22 or later.")) w).
Proof. intros Hzstd. unfold node, script. now rewrite Hzstd. Qed.

(** [processFile] on a file that does not exist. *)
Lemma processFile_not_found file results w :
  fs_existsSync (w_fs w) (pf_absolutePath file) = false ->
  processFile file results w
  = (Throw (Error ("Required file not found: " +:+ pf_absolutePath file)), w).
Proof. intros Hmissing. now rewrite processFile_eq, Hmissing. Qed.

(** X14: a file is checked and read before anything else is done for it: if
    it is missing, [processFile] throws the "Required file not found" error
    of [ensureFile], if it cannot be read, the error of [fs.readFileSync],
    and in both cases the world is as it was: the timer has not been read
    and nothing has been printed or written. *)
Theorem processFile_missing_or_unreadable file results w e :
  (fs_existsSync (w_fs w) (pf_absolutePath file) = false /\
   e = Error ("Required file not found: " +:+ pf_absolutePath file)) \/
  (fs_existsSync (w_fs w) (pf_absolutePath file) = true /\
   fs_readFileSync (w_fs w) (pf_absolutePath file) = Throw e) ->
  processFile file results w = (Throw e, w).
Proof.
  intros [[Hmissing ->]|[Hexists Hread]].
  - now apply processFile_not_found.
  - now rewrite processFile_eq, Hexists, Hread.
Qed.

(** What a file processed to its end has done. *)
Lemma processFile_completed file results w out w' :
  processFile file results w = (Normal out, w') ->
  exists buffer rs w2 chartSvg,
    fs_readFileSync (w_fs w) (pf_absolutePath file) = Normal buffer /\
    sweep algorithms buffer (Buffer_length buffer) (sweepStart file buffer w)
      = (Normal rs, w2) /\
    renderToBufferSync (chartConfiguration (fileResultOf file buffer rs)) "image/svg+xml"
      = Normal chartSvg /\
    fs_writeFileSync (w_fs w2) (chartPathOf file) chartSvg = Normal (w_fs w') /\
    out = push results {| re_file := fileResultOf file buffer rs;
                          re_chartPath := path_relative repoRoot (chartPathOf file) |} /\
    (verbose = false -> w_console w' = w_console w).
Proof.
  rewrite processFile_eq.
  destruct (fs_existsSync _ _); [|discriminate].
  destruct (fs_readFileSync _ _) as [buffer|e]; [|discriminate].
  pose proof (sweep_keeps w_console algorithms buffer (Buffer_length buffer)
                (sweepStart file buffer w) (fun w0 => eq_refl)) as Hconsole.
  destruct (sweep _ _ _ _) as [[rs|e] w2] eqn:Hsweep; [|discriminate].
  cbv zeta. destruct (renderToBufferSync _ _) as [chartSvg|error] eqn:Hrender; [|discriminate].
  rewrite logVerbose_fs.
  destruct (fs_writeFileSync _ _ _) as [fs'|e] eqn:Hwrite; [|discriminate].
  intros [= <- <-]. exists buffer, rs, w2, chartSvg.
  repeat split; try assumption.
  - now rewrite logVerbose_fs.
  - intros Hquiet. unfold sweepStart, logVerbose in *. rewrite Hquiet in *.
    simpl. apply Hconsole. reflexivity.
Qed.

(** X26: a file processed to its end has changed the file system by one
    write only: the SVG that the renderer returned for the configuration of
    its result, written to [charts/<slug of the display name>.svg]; and it
    has appended one entry, whose original size is the length of the file
    read and whose chart path is that path relative to the repository
    root. *)
Theorem processFile_writes_one_chart file results w out w' :
  processFile file results w = (Normal out, w') ->
  let chartPath := path_join [chartsDir; slugify (pf_displayName file) +:+ ".svg"] in
  exists buffer chartSvg entry,
    fs_readFileSync (w_fs w) (pf_absolutePath file) = Normal buffer /\
    renderToBufferSync (chartConfiguration (re_file entry)) "image/svg+xml"
      = Normal chartSvg /\
    fs_writeFileSync (w_fs w) chartPath chartSvg = Normal (w_fs w') /\
    out = results ++ [entry] /\
    fr_originalSize (re_file entry) = Buffer_length buffer /\
    re_chartPath entry = path_relative repoRoot chartPath.
Proof.
  intros Hrun. cbv zeta.
  apply processFile_completed in Hrun
    as (buffer & rs & w2 & chartSvg & Hread & Hsweep & Hrender & Hwrite & -> & _).
  pose proof (sweep_fs algorithms buffer (Buffer_length buffer) (sweepStart file buffer w))
    as Hfs.
  rewrite Hsweep in Hfs. cbn [snd] in Hfs. unfold sweepStart in Hfs.
  rewrite logVerbose_fs in Hfs. rewrite Hfs in Hwrite.
  exists buffer, chartSvg. eexists. repeat split; eassumption.
Qed.

(** A loop that completes keeps what each completed iteration keeps. *)
Lemma for_of_completed_keeps {A S B} (proj : World -> B) (body : A -> S -> M S) :
  (forall x s w s' w', body x s w = (Normal s', w') -> proj w' = proj w) ->
  forall xs s w s' w', for_of xs s body w = (Normal s', w') -> proj w' = proj w.
Proof.
  intros Hbody. induction xs as [|x xs IH]; intros s w s' w' Hrun.
  - now injection Hrun as _ <-.
  - rewrite for_of_cons in Hrun.
    apply bind_inv_normal in Hrun as (s1 & w1 & Hx & Hrest).
    rewrite (IH _ _ _ _ Hrest). now apply (Hbody x s w s1).
Qed.

(** X10: when [BENCHMARK_VERBOSE] is not [1], a run of [main] that
    completes prints nothing, neither to stdout nor to stderr. *)
Theorem quiet_run_prints_nothing files w w' :
  verbose = false ->
  main files w = (Normal tt, w') ->
  w_console w' = w_console w.
Proof.
  intros Hquiet Hmain. unfold main in Hmain.
  apply bind_inv_normal in Hmain as ([] & w0 & Hdir & Hmain).
  apply bind_inv_normal in Hmain as (results & w1 & Hfiles & Hmain).
  assert (w_console w0 = w_console w) as H0.
  { unfold ensureChartsDir, bind, existsSync, mkdirSync in Hdir.
    destruct (fs_existsSync _ _); simpl in Hdir.
    - now injection Hdir as <-.
    - destruct (fs_mkdirSync _ _); [|discriminate]. now injection Hdir as <-. }
  assert (w_console w1 = w_console w0) as H1.
  { unfold processFiles in Hfiles.
    apply (for_of_completed_keeps w_console) in Hfiles; [exact Hfiles|].
    intros file acc wa out wb Hfile.
    apply processFile_completed in Hfile as (? & ? & ? & ? & _ & _ & _ & _ & _ & Hkeep).
    now apply Hkeep. }
  unfold bind, newDateToISOString, writeFileSync in Hmain.
  cbn [fst snd tick w_fs] in Hmain.
  destruct (fs_writeFileSync _ _ _); [|discriminate].
  injection Hmain as <-. cbn [setFs tick w_console]. congruence.
Qed.

(** X11: any error thrown while a file is processed is fatal to the run:
    it leaves the loop over the files and [main], whatever files follow, the
    handler of [main().catch] prints it, and the process ends with exit
    code 1 in the world in which the error was thrown, so that the report
    is not written. *)
Theorem processing_failure_is_fatal before file after w w0 results w1 e w2 :
  ensureChartsDir w = (Normal tt, w0) ->
  processFiles before w0 = (Normal results, w1) ->
  processFile file results w1 = (Throw e, w2) ->
  main (before ++ file :: after) w = (Throw e, w2) /\
  node (mainCatch (before ++ file :: after)) w
  = setExitCode 1 (print (StderrError e) w2).
Proof.
  intros Hdir Hbefore Hfile.
  assert (main (before ++ file :: after) w = (Throw e, w2)) as Hmain.
  { unfold main. rewrite (bind_normal _ _ _ _ _ Hdir). apply bind_throw.
    unfold processFiles in *. now apply (for_of_throws _ _ _ _ _ _ _ _ _ _ Hbefore). }
  split; [exact Hmain|].
  unfold node, mainCatch, try_catch. now rewrite Hmain.
Qed.

(** X13: when the charts directory is missing and cannot be created,
    [main] throws the error of [fs.mkdirSync] before it looks at any file:
    the world is as it was. *)
Theorem mkdir_failure_is_fatal files w e :
  fs_existsSync (w_fs w) chartsDir = false ->
  fs_mkdirSync (w_fs w) chartsDir = Throw e ->
  main files w = (Throw e, w).
Proof.
  intros Hmissing Hmkdir. unfold main. apply bind_throw.
  unfold ensureChartsDir, bind, existsSync, mkdirSync. rewrite Hmissing. simpl.
  now rewrite Hmkdir.
Qed.

Lemma processFile_keeps_exitCode file results w :
  w_exitCode (snd (processFile file results w)) = w_exitCode w.
Proof.
  assert (forall line w0, w_exitCode (logVerbose line w0) = w_exitCode w0) as Hlog
    by (intros line w0; unfold logVerbose; now destruct verbose).
  rewrite processFile_eq.
  destruct (fs_existsSync _ _); [|reflexivity].
  destruct (fs_readFileSync _ _) as [buffer|e]; [|reflexivity].
  pose proof (sweep_keeps w_exitCode algorithms buffer (Buffer_length buffer)
                (sweepStart file buffer w) (fun w0 => eq_refl) Hlog) as Hsweep.
  unfold sweepStart in Hsweep at 2. rewrite Hlog in Hsweep.
  destruct (sweep _ _ _ _) as [[rs|e] w2]; simpl in Hsweep; [|exact Hsweep].
  cbv zeta. destruct (renderToBufferSync _ _) as [chartSvg|error].
  - destruct (fs_writeFileSync _ _ _) as [fs'|e]; cbn [fst snd].
    + rewrite Hlog. unfold setFs. cbn [w_exitCode]. now rewrite Hlog.
    + now rewrite Hlog.
  - unfold renderFailed, print. cbn [fst snd w_exitCode]. now rewrite Hlog.
Qed.

(** [main] itself never sets the exit code. *)
Lemma main_keeps_exitCode files w : w_exitCode (snd (main files w)) = w_exitCode w.
Proof.
  unfold main, bind.
  assert (w_exitCode (snd (ensureChartsDir w)) = w_exitCode w) as Hdir.
  { unfold ensureChartsDir, bind, existsSync, mkdirSync.
    destruct (fs_existsSync _ _); simpl; [reflexivity|].
    now destruct (fs_mkdirSync _ _). }
  destruct (ensureChartsDir w) as [[[]|e] w0]; simpl in Hdir; [|exact Hdir].
  pose proof (for_of_keeps w_exitCode processFile processFile_keeps_exitCode files [] w0)
    as Hfiles.
  fold (processFiles files) in Hfiles.
  destruct (processFiles files w0) as [[results|e] w1]; cbn [fst snd] in *;
    [|congruence].
  unfold newDateToISOString, writeFileSync. cbn [fst snd tick w_fs w_ticks].
  destruct (fs_writeFileSync _ _ _); cbn [snd setFs tick w_exitCode]; congruence.
Qed.

(** X9: started with no exit code set, the process of [main().catch] ends
    with status 0 when [main] completes and with status 1 when [main]
    throws, whatever it throws: the status tells exactly whether the run
    succeeded. *)
Theorem exit_status_reports_failure files w :
  w_exitCode w = None ->
  exitStatus (node (mainCatch files) w) = if isNormal (fst (main files w)) then 0 else 1.
Proof.
  intros Hfresh. pose proof (main_keeps_exitCode files w) as Hkeep.
  unfold node, mainCatch, try_catch.
  destruct (main files w) as [[[]|e] w1]; simpl in *.
  - unfold exitStatus. now rewrite Hkeep, Hfresh.
  - reflexivity.
Qed.

(** X18: the chart of a file is a line chart titled with the display name
    of the file followed by " Compression Ratio", with one series per
    algorithm of the registry, labelled [GZIP], [BROTLI] and [ZSTD] in this
    order; the points of a series are the levels of its algorithm, 1 to 9,
    0 to 11 and 1 to 22, each with the ratio measured at that level. *)
Theorem chart_series_of_sweep file buffer originalSize w rs w' :
  sweep algorithms buffer originalSize w = (Normal rs, w') ->
  let configuration := chartConfiguration (fileResultOf file buffer rs) in
  cfg_type configuration = "line" /\
  cfg_title configuration = pf_displayName file +:+ " Compression Ratio" /\
  map ds_label (cfg_datasets configuration) = ["GZIP"; "BROTLI"; "ZSTD"] /\
  map (fun series => map fst (ds_data series)) (cfg_datasets configuration)
  = [range 1 9; range 0 11; range 1 22] /\
  map (fun series => map snd (ds_data series)) (cfg_datasets configuration)
  = map (fun r => map m_ratio (ar_measurements r)) rs.
Proof.
  intros Hrun. apply sweep_sweptAs in Hrun. cbv zeta.
  split; [reflexivity|]. split; [reflexivity|].
  unfold chartConfiguration, fileResultOf. cbn [cfg_datasets fr_algorithms].
  rewrite !map_map. cbn [ds_label ds_data].
  assert (forall r, map fst (map (fun m => (m_level m, m_ratio m)) (ar_measurements r))
                    = map m_level (ar_measurements r)) as Hfst
    by (intros r; now rewrite map_map).
  assert (forall r, map snd (map (fun m => (m_level m, m_ratio m)) (ar_measurements r))
                    = map m_ratio (ar_measurements r)) as Hsnd
    by (intros r; now rewrite map_map).
  rewrite (map_ext _ _ Hfst), (map_ext _ _ Hsnd).
  split; [|split; [|reflexivity]].
  - inversion Hrun as [|a1 r1 l1 rs1 [Hn1 _] Hrun1]; subst.
    inversion Hrun1 as [|a2 r2 l2 rs2 [Hn2 _] Hrun2]; subst.
    inversion Hrun2 as [|a3 r3 l3 rs3 [Hn3 _] Hrun3]; subst.
    inversion Hrun3; subst. simpl. now rewrite Hn1, Hn2, Hn3.
  - inversion Hrun as [|a1 r1 l1 rs1 [_ Hm1] Hrun1]; subst.
    inversion Hrun1 as [|a2 r2 l2 rs2 [_ Hm2] Hrun2]; subst.
    inversion Hrun2 as [|a3 r3 l3 rs3 [_ Hm3] Hrun3]; subst.
    inversion Hrun3; subst. simpl.
    apply measured_levels in Hm1, Hm2, Hm3. now rewrite Hm1, Hm2, Hm3.
Qed.

Lemma length_sectionLines entry :
  length (sectionLines entry)
  = (8 + length (allMeasurements (fr_algorithms (re_file entry))))%nat.
Proof.
  unfold sectionLines, allMeasurements. cbv zeta. rewrite !length_app. simpl.
  assert (length (concat (map measurementRows (fr_algorithms (re_file entry))))
          = length (concat (map ar_measurements (fr_algorithms (re_file entry))))) as ->.
  { induction (fr_algorithms (re_file entry)) as [|r rs IH]; [reflexivity|].
    simpl. rewrite !length_app, IH. unfold measurementRows. now rewrite length_map. }
  lia.
Qed.

(** X19: the section of the report of every processed file has 51 lines: a
    heading and the lines about size and chart, the two lines of the table
    head, one row for each of the 43 levels of the registry, and a closing
    empty line; the report of a run is the 6 lines of its header followed
    by 51 lines per file. *)
Theorem report_has_51_lines_per_file files w results w' now :
  processFiles files w = (Normal results, w') ->
  Forall (fun entry => length (sectionLines entry) = 51%nat) results /\
  length (readmeLines now results) = (6 + 51 * length files)%nat.
Proof.
  intros Hrun. unfold processFiles in Hrun.
  apply (for_of_push (fun (_ : PackageFile) entry => length (sectionLines entry) = 51%nat))
    in Hrun as (new & -> & Hnew).
  - rewrite app_nil_l.
    assert (Forall (fun entry => length (sectionLines entry) = 51%nat) new) as Hall.
    { clear -Hnew. induction Hnew; constructor; assumption. }
    split; [exact Hall|].
    unfold readmeLines. rewrite length_app.
    rewrite (Forall2_length _ _ _ Hnew). clear Hnew.
    change (length (headerLines now)) with 6%nat. f_equal.
    induction Hall as [|entry entries Hentry _ IH]; [reflexivity|].
    cbn [map concat length]. rewrite length_app, Hentry, IH. lia.
  - intros file acc wa out wb Hfile.
    apply processFile_completed in Hfile as (buffer & rs & w2 & svg & _ & Hsweep & _ & _ & -> & _).
    eexists. split; [reflexivity|].
    rewrite length_sectionLines. cbn [re_file fileResultOf fr_algorithms].
    unfold sweep in Hsweep. apply sweep_loop_timer in Hsweep as (new & Hnew & Hlen & _).
    simpl in Hnew. subst new. rewrite Hlen. reflexivity.
Qed.

Lemma for_of_map {A B S} (f : A -> B) (body : B -> S -> M S) (xs : list A) (s : S) w :
  for_of (map f xs) s body w = for_of xs s (fun x => body (f x)) w.
Proof.
  revert s w. induction xs as [|x xs IH]; intros s w; [reflexivity|].
  simpl. unfold bind. destruct (body (f x) s w) as [[s1|e] w1]; [apply IH|reflexivity].
Qed.

(** X23: the [main] of the superseded variant is the [main] of the current
    variant run on its declared files, each taken with the absolute path
    that joins the repository root and its declared relative path: what the
    two variants do to a file differs only in where the path comes from. *)
Theorem superseded_main_is_main_on_declared_paths w :
  (forall file results,
      Superseded.processFile file results = processFile (asPackageFile file) results) /\
  Superseded.main w = main (map asPackageFile Superseded.files) w.
Proof.
  split; [reflexivity|].
  unfold Superseded.main, main, processFiles, bind.
  destruct (ensureChartsDir w) as [[[]|e] w0]; [|reflexivity].
  now rewrite for_of_map.
Qed.

End DriverCases.

Lemma script_requires_zstd_witness :
  let w := Stub.world (H:=Stub.node20) Stub.fontFs in
  let final := node (H:=Stub.node20) (script (H:=Stub.node20) [Stub.fontSpec]) w in
  w_exitCode final = Some 1 /\
  w_console final
  = [StderrError (Error "Zstandard compression requires Node.js v22 or later.")] /\
  w_fs final = Stub.fontFs.
Proof.
  cbv zeta.
  rewrite (script_requires_zstd (H:=Stub.node20) [Stub.fontSpec]
             (Stub.world (H:=Stub.node20) Stub.fontFs) eq_refl).
  repeat split.
Defined.

Lemma processFile_missing_or_unreadable_witness :
  let w := Stub.world (H:=Stub.host) (<["/repo/node_modules/pkg-c/c.js" := Stub.Dir]> Stub.twoFs) in
  processFile (H:=Stub.host) Stub.fileC [] (Stub.world (H:=Stub.host) Stub.twoFs)
  = (Throw (Error "Required file not found: /repo/node_modules/pkg-c/c.js"),
     Stub.world (H:=Stub.host) Stub.twoFs) /\
  processFile (H:=Stub.host) Stub.fileC [] w
  = (Throw (Error "EISDIR: illegal operation on a directory, read /repo/node_modules/pkg-c/c.js"),
     w).
Proof.
  cbv zeta. split.
  - apply (processFile_missing_or_unreadable (H:=Stub.host)). left. split; reflexivity.
  - apply (processFile_missing_or_unreadable (H:=Stub.host)). right. split; reflexivity.
Defined.

Lemma processFile_writes_one_chart_witness :
  exists chartSvg entry,
    fs_writeFileSync (Host:=Stub.host) Stub.twoFs "/repo/charts/pkg-a-a-js.svg" chartSvg
    = Normal (w_fs (snd Stub.fileRun)) /\
    normalOr [] (fst Stub.fileRun) = [entry] /\
    fr_originalSize (re_file entry) = 3 /\
    re_chartPath entry = "charts/pkg-a-a-js.svg".
Proof.
  destruct (processFile_writes_one_chart (H:=Stub.host) Stub.fileA []
              (Stub.world (H:=Stub.host) Stub.twoFs)
              (normalOr [] (fst Stub.fileRun)) (snd Stub.fileRun))
    as (buffer & chartSvg & entry & Hread & _ & Hwrite & Hout & Hsize & Hpath).
  - apply (run_normal (H:=Stub.host)). reflexivity.
  - exists chartSvg, entry. split; [exact Hwrite|]. split; [exact Hout|].
    split; [|exact Hpath].
    rewrite Hsize. injection Hread as <-. reflexivity.
Defined.

Lemma quiet_run_prints_nothing_witness :
  fst Stub.reportRun = Normal tt /\ w_console (snd Stub.reportRun) = [].
Proof.
  assert (Stub.reportRun = (Normal tt, snd Stub.reportRun)) as Hrun
    by (apply (run_eta (H:=Stub.host)); reflexivity).
  split; [now rewrite Hrun|].
  exact (quiet_run_prints_nothing (H:=Stub.host) [Stub.fileA; Stub.fileB]
           (Stub.world (H:=Stub.host) Stub.twoFs) (snd Stub.reportRun) eq_refl Hrun).
Defined.

Lemma processing_failure_is_fatal_witness :
  let w := Stub.world (H:=Stub.host) Stub.twoFs in
  let final :=
    node (H:=Stub.host) (mainCatch (H:=Stub.host) [Stub.fileA; Stub.fileC; Stub.fileB]) w in
  w_exitCode final = Some 1 /\
  w_console final
  = [StderrError (Error "Required file not found: /repo/node_modules/pkg-c/c.js")] /\
  w_fs final !! "/repo/README.md" = None.
Proof.
  destruct (processing_failure_is_fatal (H:=Stub.host)
              [Stub.fileA] Stub.fileC [Stub.fileB]
              (Stub.world (H:=Stub.host) Stub.twoFs) Stub.missingStart
              (normalOr [] (fst Stub.missingBefore)) (snd Stub.missingBefore)
              (Error "Required file not found: /repo/node_modules/pkg-c/c.js")
              (snd Stub.missingBefore))
    as [_ Hnode].
  - reflexivity.
  - apply (run_normal (H:=Stub.host)). reflexivity.
  - apply (processFile_not_found (H:=Stub.host)). reflexivity.
  - change ([Stub.fileA] ++ Stub.fileC :: [Stub.fileB])
      with [Stub.fileA; Stub.fileC; Stub.fileB] in Hnode.
    cbv zeta. rewrite Hnode. repeat split.
Defined.

Lemma mkdir_failure_is_fatal_witness :
  main (H:=Stub.readOnly) [Stub.fileA; Stub.fileB]
       (Stub.world (H:=Stub.readOnly) Stub.twoFs)
  = (Throw (Error "EROFS: read-only file system, mkdir /repo/charts"),
     Stub.world (H:=Stub.readOnly) Stub.twoFs).
Proof.
  apply (mkdir_failure_is_fatal (H:=Stub.readOnly)); reflexivity.
Defined.

Lemma exit_status_reports_failure_witness :
  exitStatus (H:=Stub.host)
    (node (H:=Stub.host) (mainCatch (H:=Stub.host) [Stub.fileC])
          (Stub.world (H:=Stub.host) Stub.twoFs)) = 1 /\
  exitStatus (H:=Stub.host)
    (node (H:=Stub.host) (mainCatch (H:=Stub.host) [Stub.fileA; Stub.fileB])
          (Stub.world (H:=Stub.host) Stub.twoFs)) = 0.
Proof.
  split.
  - exact (eq_trans
             (exit_status_reports_failure (H:=Stub.host) [Stub.fileC]
                (Stub.world (H:=Stub.host) Stub.twoFs) eq_refl)
             eq_refl).
  - exact (eq_trans
             (exit_status_reports_failure (H:=Stub.host) [Stub.fileA; Stub.fileB]
                (Stub.world (H:=Stub.host) Stub.twoFs) eq_refl)
             eq_refl).
Defined.

Lemma chart_series_of_sweep_witness :
  let configuration :=
    chartConfiguration (fileResultOf Stub.fileA (Stub.zeros 10) Stub.sweepResults) in
  cfg_title configuration = "pkg-a/a.js Compression Ratio" /\
  map ds_label (cfg_datasets configuration) = ["GZIP"; "BROTLI"; "ZSTD"] /\
  map (fun series => length (ds_data series)) (cfg_datasets configuration)
  = [9; 12; 22]%nat.
Proof.
  destruct (chart_series_of_sweep (H:=Stub.host) Stub.fileA (Stub.zeros 10) 10
              (Stub.world (H:=Stub.host) ∅) Stub.sweepResults (snd Stub.sweepRun))
    as (_ & Htitle & Hlabels & Hlevels & _).
  - apply (run_eta (H:=Stub.host)). reflexivity.
  - cbv zeta. split; [exact Htitle|]. split; [exact Hlabels|].
    apply (f_equal (map (@length Z))) in Hlevels.
    rewrite map_map in Hlevels.
    rewrite <- (map_ext _ _ (fun series => length_map fst (ds_data series))).
    exact Hlevels.
Defined.

Lemma report_has_51_lines_per_file_witness :
  length (readmeLines (H:=Stub.host) "2025-01-01T00:00:00.000Z"
            (normalOr [] (fst Stub.missingBefore))) = 57%nat.
Proof.
  exact (proj2 (report_has_51_lines_per_file (H:=Stub.host) [Stub.fileA] Stub.missingStart
                  (normalOr [] (fst Stub.missingBefore)) (snd Stub.missingBefore)
                  "2025-01-01T00:00:00.000Z"
                  (run_normal (H:=Stub.host) Stub.missingBefore [] eq_refl))).
Defined.

(** ** [slugify]: lines 189-194 *)

Section Slug.

Lemma chars_inj s t : chars s = chars t -> s = t.
Proof.
  intros Heq. rewrite <- (string_of_list_ascii_of_string s),
    <- (string_of_list_ascii_of_string t). unfold chars in Heq. now rewrite Heq.
Qed.

Lemma chars_rev_app s t : chars (String.rev_app s t) = rev (chars s) ++ chars t.
Proof.
  revert t. induction s as [|c s IH]; intros t; [reflexivity|].
  cbn [String.rev_app]. rewrite IH. cbn [chars list_ascii_of_string rev].
  now rewrite <- app_assoc.
Qed.

Lemma chars_rev s : chars (String.rev s) = rev (chars s).
Proof. unfold String.rev. rewrite chars_rev_app. apply app_nil_r. Qed.

Lemma rev_rev s : String.rev (String.rev s) = s.
Proof. apply chars_inj. rewrite !chars_rev. apply rev_involutive. Qed.

Lemma chars_mapString f s : chars (mapString f s) = map f (chars s).
Proof. induction s as [|c s IH]; [reflexivity|]. cbn. now f_equal. Qed.

Lemma dropDashes_cons c s :
  dropDashes (String c s) = if Ascii.eqb c dash then dropDashes s else String c s.
Proof.
  destruct c as [b0 b1 b2 b3 b4 b5 b6 b7].
  destruct b0, b1, b2, b3, b4, b5, b6, b7; reflexivity.
Qed.

Lemma isLowerAlnum_dash : isLowerAlnum dash = false.
Proof. reflexivity. Qed.

Lemma dropDashes_suffix s :
  exists pre, chars s = pre ++ chars (dropDashes s) /\
              Forall (eq dash) pre /\
              head (chars (dropDashes s)) <> Some dash.
Proof.
  induction s as [|c s (pre & Hpre & Hdashes & Hhead)].
  - exists []. repeat split; [constructor|discriminate].
  - rewrite dropDashes_cons. destruct (Ascii.eqb_spec c dash) as [->|Hc].
    + exists (dash :: pre). repeat split; [|now constructor|exact Hhead].
      cbn [chars list_ascii_of_string]. fold (chars s). now rewrite Hpre.
    + exists []. repeat split; [constructor|]. cbn. congruence.
Qed.

Lemma dropDashes_id s : head (chars s) <> Some dash -> dropDashes s = s.
Proof.
  destruct s as [|c s]; [reflexivity|]. intros Hhead. rewrite dropDashes_cons.
  destruct (Ascii.eqb_spec c dash) as [->|Hc]; [now destruct Hhead|reflexivity].
Qed.

Lemma head_rev {A} (l : list A) : head (rev l) = last l.
Proof. rewrite rev_alt. apply head_reverse. Qed.

Lemma last_rev {A} (l : list A) : last (rev l) = head l.
Proof. rewrite rev_alt. apply last_reverse. Qed.

Lemma trimDashes_edges s :
  head (chars (trimDashes s)) <> Some dash /\ last (chars (trimDashes s)) <> Some dash.
Proof.
  unfold trimDashes.
  destruct (dropDashes_suffix s) as (pre1 & _ & _ & Hhead1).
  destruct (dropDashes_suffix (String.rev (dropDashes s))) as (pre2 & Hpre2 & _ & Hhead2).
  rewrite chars_rev, head_rev, last_rev. split; [|exact Hhead2].
  destruct (chars (dropDashes (String.rev (dropDashes s)))) as [|c l] eqn:Hl;
    [discriminate|].
  rewrite <- (last_app_cons pre2), <- Hpre2, chars_rev, last_rev. exact Hhead1.
Qed.

Lemma trimDashes_id s :
  head (chars s) <> Some dash -> last (chars s) <> Some dash -> trimDashes s = s.
Proof.
  intros Hhead Hlast. unfold trimDashes. rewrite (dropDashes_id s Hhead).
  rewrite dropDashes_id; [apply rev_rev|]. now rewrite chars_rev, head_rev.
Qed.

Lemma trimDashes_infix s :
  exists pre post, chars s = pre ++ chars (trimDashes s) ++ post /\
                   Forall (eq dash) pre /\ Forall (eq dash) post.
Proof.
  unfold trimDashes.
  destruct (dropDashes_suffix s) as (pre1 & Hpre1 & Hdashes1 & _).
  destruct (dropDashes_suffix (String.rev (dropDashes s))) as (pre2 & Hpre2 & Hdashes2 & _).
  exists pre1, (rev pre2). repeat split; [|assumption|].
  - rewrite Hpre1 at 1. f_equal.
    rewrite chars_rev, <- rev_app_distr, <- Hpre2, chars_rev. symmetry.
    apply rev_involutive.
  - now apply Forall_rev.
Qed.

Lemma replaceRuns_chars b s : Forall slugChar (chars (replaceRuns b s)).
Proof.
  revert b. induction s as [|c s IH]; intros b; [constructor|].
  cbn [replaceRuns]. destruct (isLowerAlnum c) eqn:Hc.
  - constructor; [now left|apply IH].
  - destruct b; [apply IH|]. constructor; [now right|apply IH].
Qed.

Lemma replaceRuns_head s : head (chars (replaceRuns true s)) <> Some dash.
Proof.
  induction s as [|c s IH]; [discriminate|].
  cbn [replaceRuns]. destruct (isLowerAlnum c) eqn:Hc; [|exact IH].
  cbn. intros [= ->]. now rewrite isLowerAlnum_dash in Hc.
Qed.

Lemma hasDoubleDash_cons c l :
  hasDoubleDash (c :: l) -> (c = dash /\ head l = Some dash) \/ hasDoubleDash l.
Proof.
  intros ([|d l1] & l2 & Heq).
  - injection Heq as -> ->. now left.
  - injection Heq as -> ->. right. now exists l1, l2.
Qed.

Lemma replaceRuns_spaced b s : ~ hasDoubleDash (chars (replaceRuns b s)).
Proof.
  revert b. induction s as [|c s IH]; intros b.
  - intros ([|? ?] & ? & [=]).
  - cbn [replaceRuns]. destruct (isLowerAlnum c) eqn:Hc.
    + intros [[-> _]|Hdd]%hasDoubleDash_cons; [|now apply (IH false)].
      now rewrite isLowerAlnum_dash in Hc.
    + destruct b; [apply IH|].
      intros [[_ Hhead]|Hdd]%hasDoubleDash_cons; [|now apply (IH true)].
      now apply (replaceRuns_head s).
Qed.

Lemma hasDoubleDash_infix pre l post :
  hasDoubleDash l -> hasDoubleDash (pre ++ l ++ post).
Proof.
  intros (l1 & l2 & ->). exists (pre ++ l1), (l2 ++ post).
  now rewrite <- !app_assoc.
Qed.

Lemma toLowerCaseChar_slugChar c : slugChar c -> toLowerCaseChar c = c.
Proof.
  intros [Hc| ->]; [|reflexivity]. unfold isLowerAlnum in Hc. unfold toLowerCaseChar.
  cbv zeta in *. destruct ((65 <=? nat_of_ascii c)%nat && (nat_of_ascii c <=? 90)%nat) eqn:Hup;
    [|reflexivity].
  apply andb_true_iff in Hup as [?%Nat.leb_le ?%Nat.leb_le].
  apply orb_true_iff in Hc as [[?%Nat.leb_le ?%Nat.leb_le]%andb_true_iff
                              |[?%Nat.leb_le ?%Nat.leb_le]%andb_true_iff]; lia.
Qed.

Lemma toLowerCase_id s : Forall slugChar (chars s) -> toLowerCase s = s.
Proof.
  induction s as [|c s IH]; [reflexivity|]. intros [Hc Hs]%Forall_cons_1.
  unfold toLowerCase in *. cbn [mapString]. now rewrite toLowerCaseChar_slugChar, IH.
Qed.

Lemma replaceRuns_id b s :
  Forall slugChar (chars s) -> ~ hasDoubleDash (chars s) ->
  (b = true -> head (chars s) <> Some dash) -> replaceRuns b s = s.
Proof.
  revert b. induction s as [|c s IH]; intros b Hall Hdd Hhead; [reflexivity|].
  apply Forall_cons_1 in Hall as [Hc Hs]. cbn [replaceRuns].
  assert (~ hasDoubleDash (chars s)) as Hdd'.
  { intros (l1 & l2 & Heq). apply Hdd. exists (c :: l1), l2.
    cbn [chars list_ascii_of_string]. fold (chars s). now rewrite Heq. }
  destruct Hc as [Hc| ->].
  - rewrite Hc. f_equal. apply IH; [assumption..|discriminate].
  - rewrite isLowerAlnum_dash. destruct b; [now destruct Hhead|].
    f_equal. apply IH; [assumption..|]. intros _ Hs'. apply Hdd.
    destruct (chars s) as [|d l] eqn:Hl; [discriminate|]. injection Hs' as ->.
    exists [], l. cbn [chars list_ascii_of_string]. fold (chars s). now rewrite Hl.
Qed.

Lemma slugify_slugShaped value : slugShaped (chars (slugify value)).
Proof.
  unfold slugify. set (s := replaceRuns false (toLowerCase value)).
  destruct (trimDashes_infix s) as (pre & post & Hs & _ & _).
  destruct (trimDashes_edges s) as [Hhead Hlast].
  repeat split; [|assumption..|].
  - pose proof (replaceRuns_chars false (toLowerCase value)) as Hall. fold s in Hall.
    rewrite Hs in Hall. apply Forall_app in Hall as [_ Hall].
    now apply Forall_app in Hall as [Hall _].
  - intros Hdd. apply (replaceRuns_spaced false (toLowerCase value)). fold s.
    rewrite Hs. now apply hasDoubleDash_infix.
Qed.

Lemma slugify_id s : slugShaped (chars s) -> slugify s = s.
Proof.
  intros (Hall & Hhead & Hlast & Hdd). unfold slugify.
  rewrite toLowerCase_id, replaceRuns_id by (assumption || discriminate).
  now apply trimDashes_id.
Qed.

(** X20: a slug is made of lower-case letters, digits and dashes only, it
    neither starts nor ends with a dash, and no two dashes follow each
    other in it. *)
Theorem slugify_shape value :
  let slug := chars (slugify value) in
  Forall (fun c => isLowerAlnum c = true \/ c = dash) slug /\
  head slug <> Some dash /\ last slug <> Some dash /\
  (forall i, slug !! i = Some dash -> slug !! S i <> Some dash).
Proof.
  destruct (slugify_slugShaped value) as (Hall & Hhead & Hlast & Hdd).
  repeat split; [assumption..|]. intros i Hi Hi'. apply Hdd.
  exists (take i (chars (slugify value))), (drop (S (S i)) (chars (slugify value))).
  rewrite <- (drop_S _ _ _ Hi'). symmetry. now apply take_drop_middle.
Qed.

(** X21: [slugify] is idempotent: the slug of a slug is the slug itself. *)
Theorem slugify_idempotent value : slugify (slugify value) = slugify value.
Proof. apply slugify_id, slugify_slugShaped. Qed.

Lemma replaceRuns_no_alnum b s :
  Forall (fun c => isLowerAlnum c = false) (chars s) ->
  replaceRuns b s = EmptyString \/ replaceRuns b s = String dash EmptyString.
Proof.
  revert b. induction s as [|c s IH]; intros b Hall; [now left|].
  apply Forall_cons_1 in Hall as [Hc Hs]. cbn [replaceRuns]. rewrite Hc.
  assert (replaceRuns true s = EmptyString) as Hrest.
  { clear IH Hc. induction s as [|d s IH]; [reflexivity|].
    apply Forall_cons_1 in Hs as [Hd Hs]. cbn [replaceRuns]. rewrite Hd. now apply IH. }
  rewrite Hrest. destruct b; [now left|now right].
Qed.

Lemma filter_dashes l : Forall (eq dash) l -> List.filter isLowerAlnum l = [].
Proof.
  induction 1 as [|c l <- _ IH]; [reflexivity|].
  cbn [List.filter]. now rewrite isLowerAlnum_dash.
Qed.

Lemma replaceRuns_alnum b s :
  List.filter isLowerAlnum (chars (replaceRuns b s)) = List.filter isLowerAlnum (chars s).
Proof.
  revert b. induction s as [|c s IH]; intros b; [reflexivity|].
  cbn [replaceRuns chars list_ascii_of_string List.filter]. fold (chars s).
  destruct (isLowerAlnum c) eqn:Hc.
  - cbn [chars list_ascii_of_string List.filter]. fold (chars (replaceRuns false s)).
    rewrite Hc. f_equal. apply IH.
  - destruct b; [apply IH|].
    cbn [chars list_ascii_of_string List.filter]. fold (chars (replaceRuns true s)).
    exact (IH true).
Qed.

Lemma trimDashes_alnum s :
  List.filter isLowerAlnum (chars (trimDashes s)) = List.filter isLowerAlnum (chars s).
Proof.
  destruct (trimDashes_infix s) as (pre & post & Hs & Hpre & Hpost).
  rewrite Hs, !List.filter_app, (filter_dashes pre Hpre), (filter_dashes post Hpost).
  now rewrite app_nil_r.
Qed.

Lemma slugify_alnum value :
  List.filter isLowerAlnum (chars (slugify value)) =
  List.filter isLowerAlnum (map toLowerCaseChar (chars value)).
Proof.
  unfold slugify. rewrite trimDashes_alnum, replaceRuns_alnum.
  unfold toLowerCase. now rewrite chars_mapString.
Qed.

(** X22: [slugify] keeps the letters and digits of its argument, in lower
    case and in their order: what it removes or replaces by dashes is only
    what is neither a letter nor a digit. *)
Theorem slugify_keeps_letters_and_digits value :
  List.filter isLowerAlnum (chars (slugify value)) =
  List.filter isLowerAlnum (chars (toLowerCase value)).
Proof.
  rewrite slugify_alnum. unfold toLowerCase. now rewrite chars_mapString.
Qed.

(** X25: the slug of a name is empty exactly when the name holds no ASCII
    letter and no digit. *)
Theorem slugify_empty_iff value :
  slugify value = EmptyString <->
  Forall (fun c => isLowerAlnum (toLowerCaseChar c) = false) (chars value).
Proof.
  split.
  - intros Hempty. pose proof (slugify_alnum value) as Hkeep. rewrite Hempty in Hkeep.
    cbn in Hkeep. apply List.Forall_forall. intros c Hin.
    destruct (isLowerAlnum (toLowerCaseChar c)) eqn:Hc; [exfalso|reflexivity].
    assert (In (toLowerCaseChar c)
              (List.filter isLowerAlnum (map toLowerCaseChar (chars value)))) as Hin'.
    { apply filter_In. split; [now apply in_map|exact Hc]. }
    now rewrite <- Hkeep in Hin'.
  - intros Hall. unfold slugify, toLowerCase.
    destruct (replaceRuns_no_alnum false (mapString toLowerCaseChar value))
      as [-> | ->]; [|reflexivity..].
    rewrite chars_mapString. now apply Forall_map.
Qed.

End Slug.
